(** * beats_and_shapes: the two client scripts, embedded and verified

    [comfy_gen.py] queues a video-generation workflow on a local server,
    polls its history endpoint until the job shows up and prints the
    produced file names.  [generate_music.py] sends one prompt to a remote
    music API and saves the returned audio.

    Both scripts are straight-line Python over dynamically typed values, so
    the development starts with the fragment of Python they execute: the
    values [json.loads] produces, subscripts, membership tests, iteration
    and exceptions.  Each script is then a program in a small state and
    error monad whose state holds what an observer sees: the printed lines,
    the requests sent, the sleeps, the files. *)

From Stdlib Require Import ZArith List String Ascii Lia.
From Stdlib Require Import Floats.SpecFloat.
From stdpp Require Import base strings gmap.

Local Open Scope string_scope.
Local Open Scope list_scope.
Local Open Scope Z_scope.

(** ** The Python fragment *)

Module Py.

Set Warnings "-register-all".

(** The values of the scripts: what [json.loads] returns, what a dict
    literal with [str] keys builds.  A dict keeps its insertion order (the
    order [for k in d] visits); its keys are pairwise different.  A
    [str] is held as the bytes of its UTF-8 form.  A lone surrogate, which
    [json.loads] gives for an escape such as [\ud800] and which [sys.argv]
    holds for a byte of the command line that is not UTF-8, takes the
    three bytes its code point would take (237, then 160 to 191, then a
    third). *)
Inductive value :=
| VNone
| VBool (b : bool)
| VInt (n : Z)
| VFloat (x : spec_float)
| VStr (s : string)
| VList (items : list value)
| VDict (entries : list (string * value)).

(** The exceptions the scripts meet.  [KeyError], [TypeError] and
    [IndexError] come from the scripts' own subscripts, membership tests
    and loops; [LibraryError] stands for whatever [urllib], [json] or
    [requests] raise ([URLError], [HTTPError], [JSONDecodeError],
    [UnicodeDecodeError], [ConnectionError], ...) and for what [open]
    raises ([FileNotFoundError], ...), all of them subclasses of
    [Exception]; [UnicodeEncodeError] is what [print] raises.
    [KeyboardInterrupt] and [SystemExit] derive from [BaseException]
    only. *)
Inductive exn :=
| KeyError (key : value)
| TypeError
| IndexError
| LibraryError (cls msg : string)
| KeyboardInterrupt
| SystemExit (code : Z)
| UnicodeEncodeError.

(** [isinstance(e, Exception)] *)
Definition is_Exception (e : exn) : bool :=
  match e with
  | KeyboardInterrupt | SystemExit _ => false
  | _ => true
  end.

(** What an expression evaluates to: a value, or a raised exception. *)
Inductive reply (A : Type) :=
| Ok (a : A)
| Err (e : exn).
Arguments Ok {A} a.
Arguments Err {A} e.

(** An f-string, kept as its parts: [str()] of a value is the
    interpreter's business and no property below depends on the rendered
    text. *)
Inductive part :=
| Lit (s : string)
| Fmt (v : value)
| FmtExn (e : exn).

Definition fstring := list part.

(** *** What standard output takes

    Standard output is UTF-8, as the interpreter sets it up, and strict:
    [print] raises [UnicodeEncodeError] for a text with a lone surrogate
    and writes every other text.  The literals of the scripts are ASCII.
    [str()] of a [str] is the [str] itself; [str()] of any other value,
    and the message of an exception, quote the strings they hold with
    their escapes, so a lone surrogate in them is written as a backslash
    and hexadecimal digits. *)

Definition code (c : ascii) : N := N_of_ascii c.

Fixpoint has_surrogate (s : string) : bool :=
  match s with
  | String a (String b _ as rest) =>
      ((code a =? 237) && (160 <=? code b) && (code b <=? 191))%N
      || has_surrogate rest
  | _ => false
  end.

(** [str(v)] can be written to standard output. *)
Definition printable (v : value) : bool :=
  match v with
  | VStr s => negb (has_surrogate s)
  | _ => true
  end.

Definition printable_part (p : part) : bool :=
  match p with
  | Fmt v => printable v
  | Lit _ | FmtExn _ => true
  end.

Definition encodes (text : fstring) : bool := forallb printable_part text.

(** What the outside world sees of a run. *)
Inductive event :=
| Print (text : fstring)
| HttpPost (url : string) (headers : list (string * string)) (body : value)
| HttpGet (url : fstring)
| Sleep (seconds : Z).

(** Observations on a trace. *)
Definition is_get (e : event) : bool :=
  match e with HttpGet _ => true | _ => false end.

Definition is_post (e : event) : bool :=
  match e with HttpPost _ _ _ => true | _ => false end.

Definition is_print (e : event) : bool :=
  match e with Print _ => true | _ => false end.

Definition is_sleep (e : event) : bool :=
  match e with Sleep _ => true | _ => false end.

(** *** Dicts *)

Fixpoint dict_get (k : string) (d : list (string * value)) : option value :=
  match d with
  | [] => None
  | (k', v) :: d' => if String.eqb k k' then Some v else dict_get k d'
  end.

Definition dict_has (k : string) (d : list (string * value)) : bool :=
  match dict_get k d with Some _ => true | None => false end.

Definition dict_keys (d : list (string * value)) : list string := map fst d.

(** *** Equality, as containers use it

    [x in lst] compares with [x is e or x == e], and so do [==] on lists
    and on dicts for their elements.  On decoded JSON the identity test
    matters for one value only: [json] decodes every [NaN] to the same
    float object, which is not [==] to itself.  Numbers compare by value
    across [bool], [int] and [float]. *)

Definition int_of_bool (b : bool) : Z := if b then 1 else 0.

(** [float == int], exact: [±m·2^e = n] *)
Definition float_eq_int (x : spec_float) (n : Z) : bool :=
  match x with
  | S754_zero _ => n =? 0
  | S754_finite s m e =>
      let sm := if s then - Z.pos m else Z.pos m in
      if 0 <=? e then n =? sm * 2 ^ e else n * 2 ^ (- e) =? sm
  | _ => false
  end.

Definition float_same (x y : spec_float) : bool :=
  match x, y with
  | S754_nan, S754_nan => true
  | _, _ => SFeqb x y
  end.

Fixpoint same (x y : value) {struct x} : bool :=
  match x, y with
  | VNone, VNone => true
  | VBool a, VBool b => Bool.eqb a b
  | VBool a, VInt n => int_of_bool a =? n
  | VBool a, VFloat f => float_eq_int f (int_of_bool a)
  | VInt n, VBool b => n =? int_of_bool b
  | VInt n, VInt m => n =? m
  | VInt n, VFloat f => float_eq_int f n
  | VFloat f, VBool b => float_eq_int f (int_of_bool b)
  | VFloat f, VInt n => float_eq_int f n
  | VFloat f, VFloat g => float_same f g
  | VStr s, VStr t => String.eqb s t
  | VList xs, VList ys =>
      (fix all2 (xs ys : list value) {struct xs} : bool :=
         match xs, ys with
         | [], [] => true
         | x' :: xs', y' :: ys' => same x' y' && all2 xs' ys'
         | _, _ => false
         end) xs ys
  | VDict d, VDict d' =>
      (length d =? length d')%nat &&
      (fix sub (d : list (string * value)) {struct d} : bool :=
         match d with
         | [] => true
         | (k, v) :: rest =>
             match dict_get k d' with
             | Some w => same v w && sub rest
             | None => false
             end
         end) d
  | _, _ => false
  end.

(** *** Subscript, membership, iteration *)

(** [__index__]: an [int], or a [bool] (which is an [int]) *)
Definition as_index (key : value) : option Z :=
  match key with
  | VInt n => Some n
  | VBool b => Some (int_of_bool b)
  | _ => None
  end.

(** A sequence position: negative indices count from the end. *)
Definition seq_index {A : Type} (l : list A) (i : Z) : reply A :=
  let len := Z.of_nat (length l) in
  let j := if i <? 0 then i + len else i in
  if (0 <=? j) && (j <? len)
  then match nth_error l (Z.to_nat j) with
       | Some a => Ok a
       | None => Err IndexError
       end
  else Err IndexError.

(** The characters of a [str], each with the bytes it takes: a byte from
    128 to 191 continues the character before it. *)
Definition continues (c : ascii) : bool :=
  ((128 <=? code c) && (code c <=? 191))%N.

Fixpoint characters (s : string) : list string :=
  match s with
  | EmptyString => []
  | String c rest =>
      let l := characters rest in
      match rest with
      | String b _ =>
          if continues b then
            match l with
            | first :: more => String c first :: more
            | [] => [String c EmptyString]
            end
          else String c EmptyString :: l
      | EmptyString => String c EmptyString :: l
      end
  end.

Definition chars (s : string) : list value := map VStr (characters s).

(** [container[key]] *)
Definition getitem (container key : value) : reply value :=
  match container with
  | VDict d =>
      match key with
      | VStr k =>
          match dict_get k d with
          | Some v => Ok v
          | None => Err (KeyError key)
          end
      | VList _ | VDict _ => Err TypeError
      | _ => Err (KeyError key)
      end
  | VList l =>
      match as_index key with
      | Some i => seq_index l i
      | None => Err TypeError
      end
  | VStr s =>
      match as_index key with
      | Some i => seq_index (chars s) i
      | None => Err TypeError
      end
  | _ => Err TypeError
  end.

(** [s in h] on two [str]: [s] occurs in [h] *)
Fixpoint occurs (s h : string) : bool :=
  String.prefix s h ||
  match h with
  | EmptyString => false
  | String _ h' => occurs s h'
  end.

(** [x in container] *)
Definition contains (x container : value) : reply bool :=
  match container with
  | VDict d =>
      match x with
      | VStr k => Ok (dict_has k d)
      | VList _ | VDict _ => Err TypeError
      | _ => Ok false
      end
  | VList l => Ok (existsb (same x) l)
  | VStr h =>
      match x with
      | VStr s => Ok (occurs s h)
      | _ => Err TypeError
      end
  | _ => Err TypeError
  end.

(** What [for x in container] visits. *)
Definition iter (container : value) : reply (list value) :=
  match container with
  | VDict d => Ok (map VStr (dict_keys d))
  | VList l => Ok l
  | VStr s => Ok (chars s)
  | _ => Err TypeError
  end.

(** *** Programs

    A statement sequence runs in a state [St] and ends in one of three ways.
    [Pending] is for the model only: the loop was given too little fuel to
    reach its end, the program is still running. *)
Inductive result (A : Type) :=
| Return (a : A)
| Raise (e : exn)
| Pending.
Arguments Return {A} a.
Arguments Raise {A} e.
Arguments Pending {A}.

Definition M (St A : Type) : Type := St -> St * result A.

Definition ret {St A} (a : A) : M St A := fun s => (s, Return a).

Definition raise {St A} (e : exn) : M St A := fun s => (s, Raise e).

Definition pending {St A} : M St A := fun s => (s, Pending).

Definition bind {St A B} (m : M St A) (f : A -> M St B) : M St B :=
  fun s =>
    match m s with
    | (s', Return a) => f a s'
    | (s', Raise e) => (s', Raise e)
    | (s', Pending) => (s', Pending)
    end.

Definition eval {St A} (r : reply A) : M St A :=
  match r with
  | Ok a => ret a
  | Err e => raise e
  end.

(** [for x in xs: body(x)] *)
Fixpoint for_each {St A} (xs : list A) (body : A -> M St unit) : M St unit :=
  match xs with
  | [] => ret tt
  | x :: xs' => bind (body x) (fun _ => for_each xs' body)
  end.

(** [try: body  except Exception as e: handler(e)] *)
Definition try_except_Exception {St} (body : M St unit) (handler : exn -> M St unit)
  : M St unit :=
  fun s =>
    match body s with
    | (s', Raise e) => if is_Exception e then handler e s' else (s', Raise e)
    | r => r
    end.

(** How the interpreter leaves a module body: status 0 at its end, the
    code of an uncaught [SystemExit], a traceback for any other uncaught
    exception. *)
Inductive status :=
| Exited (code : Z)
| Traceback (e : exn)
| Running.

Definition interpreter_exit (r : result unit) : status :=
  match r with
  | Return _ => Exited 0
  | Raise (SystemExit code) => Exited code
  | Raise e => Traceback e
  | Pending => Running
  end.

End Py.

Declare Scope py_scope.
Delimit Scope py_scope with py.
Notation "x <- m ;; k" := (Py.bind m (fun x => k))
  (at level 100, m at next level, right associativity) : py_scope.
Notation "m ;; k" := (Py.bind m (fun _ => k))
  (at level 100, right associativity) : py_scope.

(** ** comfy_gen.py *)

Module ComfyGen.
Import Py.
Local Open Scope py_scope.

(** The local server as the script meets it: what [urlopen], [read],
    [decode] and [json.loads] together give back for the one POST, and for
    the [k]-th GET of the history endpoint ([k] counts from 0). *)
Record server := {
  prompt_reply : reply value;
  history_reply : nat -> reply value
}.

(** What a run has done so far: the events in the order they happened, and
    how many history requests were sent. *)
Record world := {
  trace : list event;
  polls : nat
}.

Definition start : world := {| trace := []; polls := 0 |}.

Definition emit (e : event) : M world unit :=
  fun w => ({| trace := trace w ++ [e]; polls := polls w |}, Return tt).

(** [print(text)]: the line is written, or it cannot be encoded and
    nothing is. *)
Definition print (text : fstring) : M world unit :=
  if encodes text then emit (Print text) else raise UnicodeEncodeError.

(** [time.sleep(seconds)]; the sleep is an event, it always returns. *)
Definition sleep (seconds : Z) : M world unit := emit (Sleep seconds).

Definition workflow : value :=
  VDict [
    ("1", VDict [
      ("inputs", VDict [
        ("model", VStr "wan2.5-t2v-preview");
        ("prompt", VStr "Minimalist game studio logo splash, 16:9 at 480p. The entire frame is solid black. In the center, a wide, single-line logo with the word BadMadBrax is shown. Directly beneath it, a thin rectangular outline with the same width acts like an underline and contains the smaller, squat and slightly elongated word GAMES. Both are centered and fill most of the horizontal space. All letters are solid neon colors in vibrant cyan and molten pink, with some letter edges and curves shaped like circular saw blades. There are no extra visible shapes such as triangles or squares inside the letters. The logo gently pulses in brightness and slightly scales in and out in time with a quiet, distant EDM beat, moving smoothly. The camera stays almost perfectly still, with only tiny micro-movements.");
        ("size", VStr "480p: 16:9 (832x480)");
        ("duration", VInt 5);
        ("seed", VInt 42);
        ("prompt_extend", VBool true)
      ]);
      ("class_type", VStr "WanTextToVideoApi")
    ]);
    ("2", VDict [
      ("inputs", VDict [
        ("video", VList [VStr "1"; VInt 0]);
        ("filename_prefix", VStr "splash_gen");
        ("format", VStr "mp4");
        ("codec", VStr "h264")
      ]);
      ("class_type", VStr "SaveVideo")
    ])
  ].

(** The address [check_status] asks for an identifier. *)
Definition history_url (prompt_id : value) : fstring :=
  [Lit "http://127.0.0.1:8000/history/"; Fmt prompt_id].

Definition video_line (filename : value) : event :=
  Print [Lit "Video saved as: "; Fmt filename].

(** Result extraction, lines 50 to 54.  The body of the inner loop: *)
Definition each_video (video : value) : M world unit :=
  filename <- eval (getitem video (VStr "filename")) ;;
  print [Lit "Video saved as: "; Fmt filename].

(** the body of the outer loop ([outputs[node_id]] is looked up twice): *)
Definition each_node (outputs node_id : value) : M world unit :=
  slot <- eval (getitem outputs node_id) ;;
  has_videos <- eval (contains (VStr "videos") slot) ;;
  if has_videos : bool then
    slot <- eval (getitem outputs node_id) ;;
    videos <- eval (getitem slot (VStr "videos")) ;;
    items <- eval (iter videos) ;;
    for_each items each_video
  else ret tt.

(** and the whole of it, on [record = history[prompt_id]]. *)
Definition extract_results (record : value) : M world unit :=
  outputs <- eval (getitem record (VStr "outputs")) ;;
  node_ids <- eval (iter outputs) ;;
  for_each node_ids (each_node outputs).

Section Script.

Variable net : server.

(** A [Request] with [data] is a POST; its body is [json.dumps(p)]. *)
Definition queue_prompt (prompt : value) : M world value :=
  let p := VDict [("prompt", prompt)] in
  emit (HttpPost "http://127.0.0.1:8000/prompt" [] p) ;;
  eval (prompt_reply net).

Definition check_status (prompt_id : value) : M world value :=
  fun w =>
    ({| trace := trace w ++ [HttpGet (history_url prompt_id)];
        polls := S (polls w) |},
     match history_reply net (polls w) with
     | Ok v => Return v
     | Err e => Raise e
     end).

(** [while True:], unfolded at most [fuel] times. *)
Fixpoint poll_loop (fuel : nat) (prompt_id : value) : M world unit :=
  match fuel with
  | O => pending
  | S fuel' =>
      history <- check_status prompt_id ;;
      found <- eval (contains prompt_id history) ;;
      if found : bool then
        print [Lit "Generation complete!"] ;;
        record <- eval (getitem history prompt_id) ;;
        extract_results record
      else
        sleep 5 ;;
        poll_loop fuel' prompt_id
  end.

(** The [try] suite, with any job description in the place of
    [workflow]. *)
Definition flow (job : value) (fuel : nat) : M world unit :=
  print [Lit "Queuing generation..."] ;;
  result <- queue_prompt job ;;
  prompt_id <- eval (getitem result (VStr "prompt_id")) ;;
  print [Lit "Prompt queued! ID: "; Fmt prompt_id] ;;
  print [Lit "Waiting for completion (this may take a few minutes)..."] ;;
  poll_loop fuel prompt_id.

(** The [try] suite. *)
Definition body (fuel : nat) : M world unit := flow workflow fuel.

Definition script (fuel : nat) : M world unit :=
  try_except_Exception (body fuel)
    (fun e => print [Lit "Error: "; FmtExn e]).

(** A run of the module from a fresh process: the events, and how the
    process ended. *)
Definition run (fuel : nat) : list event * status :=
  let '(w, r) := script fuel start in (trace w, interpreter_exit r).

End Script.

Definition count (p : event -> bool) (t : list event) : nat :=
  length (List.filter p t).

(** One turn of the loop that did not find the identifier. *)
Definition retry (prompt_id : value) : list event :=
  [HttpGet (history_url prompt_id); Sleep 5].

(** A history answer that is a mapping with the identifier among its keys,
    and one that is a mapping without it. *)
Definition lists (id : string) (r : reply value) : bool :=
  match r with
  | Ok (VDict d) => dict_has id d
  | _ => false
  end.

Definition omits (id : string) (r : reply value) : bool :=
  match r with
  | Ok (VDict d) => negb (dict_has id d)
  | _ => false
  end.

(** The identifier the flow goes on with (lines 41 and 42), or the
    exception that stops it there. *)
Definition submitted (net : server) : reply value :=
  match prompt_reply net with
  | Ok result => getitem result (VStr "prompt_id")
  | Err e => Err e
  end.

(** What is on the trace when submission is over. *)
Definition queued (prompt_id : value) : list event :=
  [Print [Lit "Queuing generation..."];
   HttpPost "http://127.0.0.1:8000/prompt" [] (VDict [("prompt", workflow)]);
   Print [Lit "Prompt queued! ID: "; Fmt prompt_id];
   Print [Lit "Waiting for completion (this may take a few minutes)..."]].

Definition not_queued : list event :=
  [Print [Lit "Queuing generation..."];
   HttpPost "http://127.0.0.1:8000/prompt" [] (VDict [("prompt", workflow)])].

Definition error_line (e : exn) : event := Print [Lit "Error: "; FmtExn e].

(** The same for any job description. *)
Definition submission (job : value) : list event :=
  [Print [Lit "Queuing generation..."];
   HttpPost "http://127.0.0.1:8000/prompt" [] (VDict [("prompt", job)])].

Definition announced (job prompt_id : value) : list event :=
  submission job ++
  [Print [Lit "Prompt queued! ID: "; Fmt prompt_id];
   Print [Lit "Waiting for completion (this may take a few minutes)..."]].

(** [m] only adds events that satisfy [P]. *)
Definition emits {A} (P : event -> bool) (m : M world A) : Prop :=
  forall w, exists t, trace (m w).1 = trace w ++ t /\ forallb P t = true.

(** [m] needs no fuel: it returns or raises. *)
Definition halts {A} (m : M world A) : Prop :=
  forall w, (m w).2 <> Pending.

(** *** Result records

    A result record as the loop expects it: [outputs] maps node ids to
    mappings, and what a node holds under [videos] is a list of mappings
    with a [filename]. *)
Definition is_descriptor (v : value) : bool :=
  match v with
  | VDict d => dict_has "filename" d
  | _ => false
  end.

Definition slot_ok (slot : value) : bool :=
  match slot with
  | VDict m =>
      match dict_get "videos" m with
      | None => true
      | Some (VList vs) => forallb is_descriptor vs
      | Some _ => false
      end
  | _ => false
  end.

Definition outputs_ok (outs : list (string * value)) : bool :=
  forallb (fun kv => slot_ok kv.2) outs.

Definition videos_of (slot : value) : list value :=
  match slot with
  | VDict m =>
      match dict_get "videos" m with
      | Some (VList vs) => vs
      | _ => []
      end
  | _ => []
  end.

Definition filename_of (video : value) : value :=
  match video with
  | VDict d => default VNone (dict_get "filename" d)
  | _ => VNone
  end.

(** Standard output can encode every file name of the [videos] lists. *)
Definition outputs_printable (outs : list (string * value)) : bool :=
  forallb (fun kv => forallb (fun v => printable (filename_of v))
                             (videos_of kv.2)) outs.

(** The lines for a whole [outputs] mapping, node by node. *)
Definition video_lines (outs : list (string * value)) : list event :=
  flat_map (fun kv => map (fun v => video_line (filename_of v)) (videos_of kv.2))
           outs.

Definition no_videos (outs : list (string * value)) : bool :=
  forallb (fun kv => match kv.2 with
                     | VDict m => negb (dict_has "videos" m)
                     | _ => false
                     end) outs.

(** In the words of the specification: the artifact descriptors of a
    result record are the entries with a filename field of every output
    slot that is a list, whatever the slot is called.  A node's output
    counts as a slot, and so does each value it holds. *)
Definition spec_descriptors (slot : value) : list value :=
  match slot with
  | VList items => List.filter is_descriptor items
  | _ => []
  end.

Definition spec_artifacts (record : value) : list value :=
  match getitem record (VStr "outputs") with
  | Ok (VDict outs) =>
      flat_map (fun kv =>
                  spec_descriptors kv.2 ++
                  match kv.2 with
                  | VDict slots => flat_map (fun s => spec_descriptors s.2) slots
                  | _ => []
                  end) outs
  | _ => []
  end.


(** *** Servers and records used as examples below *)

(** Three answers without the job, then the finished job. *)
Definition ready_after_three : server :=
  {| prompt_reply := Ok (VDict [("prompt_id", VStr "abc")]);
     history_reply := fun k =>
       if (k <? 3)%nat then Ok (VDict [])
       else Ok (VDict [("abc", VDict [("outputs", VDict [
              ("2", VDict [("videos", VList [
                 VDict [("filename", VStr "splash_gen_00001.mp4")]])])])])]) |}.

(** A server that never lists the job. *)
Definition never_ready : server :=
  {| prompt_reply := Ok (VDict [("prompt_id", VStr "abc")]);
     history_reply := fun _ => Ok (VDict []) |}.


(** The user interrupts the submission. *)
Definition interrupted : server :=
  {| prompt_reply := Err KeyboardInterrupt;
     history_reply := fun _ => Ok (VDict []) |}.

(** The server is not there. *)
Definition refused : server :=
  {| prompt_reply := Err (LibraryError "URLError" "Connection refused");
     history_reply := fun _ => Ok (VDict []) |}.

(** A finished job whose second node saved two videos. *)
Definition two_videos_outputs : list (string * value) :=
  [("1", VDict []);
   ("2", VDict [("videos", VList [
      VDict [("filename", VStr "splash_gen_00001.mp4")];
      VDict [("filename", VStr "splash_gen_00002.mp4")]])])].

Definition two_videos : value :=
  VDict [("outputs", VDict two_videos_outputs)].

(** A finished job with three videos; the name of the second holds the
    lone surrogate that [json.loads] makes of the escape [\ud800]. *)
Definition surrogate_name : string :=
  String "237" (String "160" (String "128" ".mp4")).

Definition surrogate_video : value :=
  VDict [("outputs", VDict [
    ("2", VDict [("videos", VList [
       VDict [("filename", VStr "a.mp4")];
       VDict [("filename", VStr surrogate_name)];
       VDict [("filename", VStr "c.mp4")]])])])].

(** A finished job whose node lists its file under [images]. *)
Definition images_only : value :=
  VDict [("outputs", VDict [
    ("2", VDict [("images", VList [
       VDict [("filename", VStr "splash_gen_00001.png")]])])])].

(** *** Further observations *)

Definition completion_line : event := Print [Lit "Generation complete!"].

Definition is_error_line (e : event) : bool :=
  match e with
  | Print [Lit s; FmtExn _] => String.eqb s "Error: "
  | _ => false
  end.

(** [None], a [bool], an [int] or a [float]: hashable, and no container. *)
Definition scalar (v : value) : bool :=
  match v with
  | VNone | VBool _ | VInt _ | VFloat _ => true
  | _ => false
  end.

(** A list or a dict: these have no hash. *)
Definition unhashable (v : value) : bool :=
  match v with
  | VList _ | VDict _ => true
  | _ => false
  end.

Definition is_mapping (v : value) : bool :=
  match v with
  | VDict _ => true
  | _ => false
  end.

(** A history answer in which [prompt_id in history] is [False]. *)
Definition misses (prompt_id : value) (r : reply value) : bool :=
  match r with
  | Ok history =>
      match contains prompt_id history with
      | Ok false => true
      | _ => false
      end
  | Err _ => false
  end.

(** What ends a turn of the loop before the membership test has an
    answer: the request raised, or the test itself did. *)
Definition turn_failure (prompt_id : value) (r : reply value) : option exn :=
  match r with
  | Err e => Some e
  | Ok history =>
      match contains prompt_id history with
      | Err e => Some e
      | Ok _ => None
      end
  end.

(** A history answer that is a mapping, whatever its keys. *)
Definition answers_mapping (r : reply value) : bool :=
  match r with
  | Ok (VDict _) => true
  | _ => false
  end.

(** *** More servers used as examples *)

(** Two answers without the job, then the connection drops. *)
Definition drops_on_third : server :=
  {| prompt_reply := Ok (VDict [("prompt_id", VStr "abc")]);
     history_reply := fun k =>
       if (k <? 2)%nat then Ok (VDict [])
       else Err (LibraryError "URLError" "Connection reset by peer") |}.

(** Two answers without the job, then an answer that is no container. *)
Definition null_on_third : server :=
  {| prompt_reply := Ok (VDict [("prompt_id", VStr "abc")]);
     history_reply := fun k =>
       if (k <? 2)%nat then Ok (VDict []) else Ok VNone |}.

(** The finished job is listed without its outputs. *)
Definition no_outputs : server :=
  {| prompt_reply := Ok (VDict [("prompt_id", VStr "abc")]);
     history_reply := fun k =>
       if (k <? 1)%nat then Ok (VDict [])
       else Ok (VDict [("abc", VDict [("status", VStr "success")])]) |}.

(** The identifier is a number; the history lists the job under the
    number's digits, as JSON keys are strings. *)
Definition numeric_identifier : server :=
  {| prompt_reply := Ok (VDict [("prompt_id", VInt 7)]);
     history_reply := fun _ =>
       Ok (VDict [("7", VDict [("outputs", VDict [])])]) |}.

(** The identifier is a list. *)
Definition list_identifier : server :=
  {| prompt_reply := Ok (VDict [("prompt_id", VList [VStr "abc"])]);
     history_reply := fun _ => Ok (VDict []) |}.

(** The submission is answered with an error report, or with a list. *)
Definition rejected : server :=
  {| prompt_reply := Ok (VDict [("error", VStr "invalid prompt")]);
     history_reply := fun _ => Ok (VDict []) |}.

Definition answers_list : server :=
  {| prompt_reply := Ok (VList [VStr "abc"]);
     history_reply := fun _ => Ok (VDict []) |}.

(** One answer without the job, then the job with [two_videos]. *)
Definition ready_after_one : server :=
  {| prompt_reply := Ok (VDict [("prompt_id", VStr "abc")]);
     history_reply := fun k =>
       if (k <? 1)%nat then Ok (VDict [])
       else Ok (VDict [("abc", two_videos)]) |}.

End ComfyGen.

(** ** generate_music.py *)

Module GenerateMusic.
Import Py.
Local Open Scope py_scope.

(** The three attributes the script reads of a [requests.Response].
    [text] is a property: it decodes [content] with the charset the
    Content-Type header names, and raises when that codec does
    ([UnicodeError] for [undefined] or [idna]); so it is a [str] or an
    exception. *)
Record response := {
  status_code : Z;
  content : list Byte.byte;
  text : reply string
}.

(** What a run has done so far: the events in the order they happened, and
    the regular files of the working directory, by name (names are
    compared byte for byte).  The directory can be written to and holds
    nothing but these files. *)
Record world := {
  trace : list event;
  files : gmap string (list Byte.byte)
}.

Definition emit (e : event) : M world unit :=
  fun w => ({| trace := trace w ++ [e]; files := files w |}, Return tt).

(** [print(text)]: the line is written, or it cannot be encoded and
    nothing is. *)
Definition print (text : fstring) : M world unit :=
  if encodes text then emit (Print text) else raise UnicodeEncodeError.

(** [sys.exit(code)] raises [SystemExit]. *)
Definition sys_exit (code : Z) : M world unit := raise (SystemExit code).

(** [sys.argv[i]] for a literal [i] *)
Definition argv_at (argv : list string) (i : nat) : M world string :=
  match argv !! i with
  | Some a => ret a
  | None => raise IndexError
  end.

(** *** Paths

    A path that is a plain name, after any [./] in front of it, names a
    file of the working directory, and opening it for writing succeeds.
    A name is plain when it has no [/] and no NUL, is not empty, [.] or
    [..], has no lone surrogate and is at most 255 bytes long. *)
Definition has_char (c : ascii) (s : string) : bool :=
  existsb (Ascii.eqb c) (list_ascii_of_string s).

Fixpoint strip_dot (stripped : bool) (s : string) : string :=
  match s with
  | String "/" rest => if stripped then strip_dot true rest else s
  | String "." (String "/" rest) => strip_dot true rest
  | _ => s
  end.

Definition plain_name (p : string) : bool :=
  negb (has_char "/" p) && negb (has_char "000" p) &&
  negb (has_surrogate p) &&
  negb (String.eqb p EmptyString) && negb (String.eqb p ".") &&
  negb (String.eqb p "..") &&
  (String.length p <=? 255)%nat.

Definition cwd_file (path : string) : option string :=
  let p := strip_dot false path in
  if plain_name p then Some p else None.

(** [f.write(data)], at the end of what was written so far; for a file
    outside the working directory nothing of [files] changes. *)
Definition write (f : option string) (data : list Byte.byte) : M world unit :=
  fun w =>
    match f with
    | Some name =>
        ({| trace := trace w;
            files := alter (fun old => old ++ data) name (files w) |},
         Return tt)
    | None => (w, Return tt)
    end.

Definition usage : string :=
  "Usage: python generate_music.py <API_KEY> <PROMPT> <FILENAME>".

Section Script.

(** What the operating system does with a path that is no plain name (a
    directory on the way, [..], an absolute path, a name the file system
    refuses): [open] raises, or it opens a file, which is a file of the
    working directory, given by its name, or a file elsewhere
    ([None]). *)
Variable os_open : string -> reply (option string).

(** [sys.argv], and what [requests.post] gives back: a response, or an
    exception ([requests] raises on transport failures only, never on an
    HTTP status). *)
Variable argv : list string.
Variable post_reply : reply response.

(** The file [open(path, "wb")] opens, or the exception it raises. *)
Definition target (path : string) : reply (option string) :=
  match cwd_file path with
  | Some name => Ok (Some name)
  | None => os_open path
  end.

(** [open(path, "wb")] creates the file or truncates it; the handle is
    known by the file it is open on. *)
Definition open_wb (path : string) : M world (option string) :=
  fun w =>
    match target path with
    | Ok (Some name) =>
        ({| trace := trace w; files := <[name := []]> (files w) |},
         Return (Some name))
    | Ok None => (w, Return None)
    | Err e => (w, Raise e)
    end.

Definition requests_post (url : string) (headers : list (string * string))
    (json : value) : M world response :=
  emit (HttpPost url headers json) ;;
  eval post_reply.

Definition script : M world unit :=
  (if (length argv <? 4)%nat then
     print [Lit usage] ;;
     sys_exit 1
   else ret tt) ;;
  api_key <- argv_at argv 1 ;;
  prompt <- argv_at argv 2 ;;
  filename <- argv_at argv 3 ;;
  let url := "https://api.elevenlabs.io/v1/text-to-music" in
  let headers := [("xi-api-key", api_key);
                  ("Content-Type", "application/json")] in
  let data := VDict [("text", VStr prompt)] in
  print [Lit "Generating music for: "; Fmt (VStr prompt); Lit "..."] ;;
  response <- requests_post url headers data ;;
  if status_code response =? 200 then
    f <- open_wb (String.append filename ".mp3") ;;
    write f (content response) ;;
    print [Lit "Success! Saved to "; Fmt (VStr filename); Lit ".mp3"]
  else
    print [Lit "Error: "; Fmt (VInt (status_code response))] ;;
    body <- eval (text response) ;;
    print [Fmt (VStr body)].

(** A run of the module in a directory holding [fs]. *)
Definition run (fs : gmap string (list Byte.byte))
  : list event * gmap string (list Byte.byte) * status :=
  let '(w, r) := script {| trace := []; files := fs |} in
  (trace w, files w, interpreter_exit r).

End Script.

(** The events of a run, by name. *)
Definition generating (prompt : string) : event :=
  Print [Lit "Generating music for: "; Fmt (VStr prompt); Lit "..."].

Definition request (api_key prompt : string) : event :=
  HttpPost "https://api.elevenlabs.io/v1/text-to-music"
    [("xi-api-key", api_key); ("Content-Type", "application/json")]
    (VDict [("text", VStr prompt)]).

Definition saved (stem : string) : event :=
  Print [Lit "Success! Saved to "; Fmt (VStr stem); Lit ".mp3"].

Definition failed (code : Z) : event :=
  Print [Lit "Error: "; Fmt (VInt code)].

Definition mp3 (stem : string) : string := String.append stem ".mp3".

(** A working directory without subdirectories, seen from inside: every
    path that is no plain name leads through a directory that is not
    there. *)
Definition no_directories : string -> reply (option string) :=
  fun _ => Err (LibraryError "FileNotFoundError" "No such file or directory").

(** Responses used as examples below. *)
Definition audio : response :=
  {| status_code := 200;
     content := [Byte.x49; Byte.x44; Byte.x33; Byte.x04];
     text := Ok "ID3" |}.

Definition unauthorized : response :=
  {| status_code := 401;
     content := [Byte.x7b; Byte.x7d];
     text := Ok "{}" |}.

(** A server error whose Content-Type names the charset [undefined]. *)
Definition undecodable : response :=
  {| status_code := 500;
     content := [Byte.x6f; Byte.x6f; Byte.x70; Byte.x73];
     text := Err (LibraryError "UnicodeError" "undefined encoding") |}.

(** A prompt given on the command line as the one byte 255, which is no
    UTF-8: [sys.argv] holds the lone surrogate U+DCFF for it. *)
Definition surrogate_prompt : string :=
  String "237" (String "179" (String "191" EmptyString)).

End GenerateMusic.

(** ** Properties of comfy_gen.py *)

Section ComfyGenFacts.
Import Py ComfyGen.
Local Open Scope py_scope.
Local Open Scope nat_scope.

(** *** What a piece of program can do to the trace *)

Lemma emits_ret {A} P (a : A) : emits P (ret a).
Proof. intros w. exists []. simpl. by rewrite app_nil_r. Qed.

Lemma emits_pending {A} P : emits (A := A) P pending.
Proof. intros w. exists []. simpl. by rewrite app_nil_r. Qed.

Lemma emits_eval {A} P (r : reply A) : emits P (eval r).
Proof. intros w. exists []. destruct r; simpl; by rewrite app_nil_r. Qed.

Lemma emits_emit P e : P e = true -> emits P (emit e).
Proof. intros He w. exists [e]. simpl. by rewrite He. Qed.

Lemma emits_raise {A} P e : emits (A := A) P (raise e).
Proof. intros w. exists []. simpl. by rewrite app_nil_r. Qed.

Lemma emits_print P text : P (Print text) = true -> emits P (print text).
Proof.
  intros HP. unfold print.
  destruct (encodes text); [by apply emits_emit | apply emits_raise].
Qed.

Lemma emits_bind {A B} P (m : M world A) (f : A -> M world B) :
  emits P m -> (forall a, emits P (f a)) -> emits P (bind m f).
Proof.
  intros Hm Hf w. unfold bind.
  destruct (Hm w) as (t1 & Ht1 & HP1).
  destruct (m w) as [w1 [a | e |]]; simpl in *.
  - destruct (Hf a w1) as (t2 & Ht2 & HP2).
    exists (t1 ++ t2). rewrite Ht2, Ht1, forallb_app, HP1, HP2.
    by rewrite app_assoc.
  - by exists t1.
  - by exists t1.
Qed.

Lemma emits_for_each {A} P (xs : list A) (f : A -> M world unit) :
  (forall a, emits P (f a)) -> emits P (for_each xs f).
Proof.
  intros Hf. induction xs as [| x xs IH]; simpl.
  - apply emits_ret.
  - apply emits_bind; [apply Hf | intros _; apply IH].
Qed.

Lemma emits_weaken {A} (P Q : event -> bool) (m : M world A) :
  (forall e, P e = true -> Q e = true) -> emits P m -> emits Q m.
Proof.
  intros HPQ Hm w. destruct (Hm w) as (t & Ht & HP).
  exists t. split; [done |].
  apply forallb_forall. intros e He.
  apply HPQ. by apply (proj1 (forallb_forall P t) HP).
Qed.

Lemma halts_ret {A} (a : A) : halts (ret a).
Proof. by intros w. Qed.

Lemma halts_eval {A} (r : reply A) : halts (eval r).
Proof. intros w. by destruct r. Qed.

Lemma halts_emit e : halts (emit e).
Proof. by intros w. Qed.

Lemma halts_print text : halts (print text).
Proof. intros w. unfold print. by destruct (encodes text). Qed.

Lemma halts_bind {A B} (m : M world A) (f : A -> M world B) :
  halts m -> (forall a, halts (f a)) -> halts (bind m f).
Proof.
  intros Hm Hf w. unfold bind. specialize (Hm w).
  destruct (m w) as [w1 [a | e |]]; simpl in *; [apply Hf | done | done].
Qed.

Lemma halts_for_each {A} (xs : list A) (f : A -> M world unit) :
  (forall a, halts (f a)) -> halts (for_each xs f).
Proof.
  intros Hf. induction xs as [| x xs IH]; simpl.
  - apply halts_ret.
  - apply halts_bind; [apply Hf | intros _; apply IH].
Qed.

Ltac emits_step :=
  first
    [ apply emits_ret
    | apply emits_eval
    | apply emits_emit; reflexivity
    | apply emits_print; reflexivity
    | apply emits_for_each; intros ?
    | apply emits_bind; [| intros ?]
    | match goal with
      | |- emits _ (if ?b then _ else _) => destruct b
      end ].

Ltac halts_step :=
  first
    [ apply halts_ret
    | apply halts_eval
    | apply halts_emit
    | apply halts_print
    | apply halts_for_each; intros ?
    | apply halts_bind; [| intros ?]
    | match goal with
      | |- halts (if ?b then _ else _) => destruct b
      end ].

(** Result extraction prints and does nothing else, and it comes to an
    end on every record. *)
Lemma extract_results_emits record : emits is_print (extract_results record).
Proof. unfold extract_results, each_node, each_video. repeat emits_step. Qed.

Lemma extract_results_halts record : halts (extract_results record).
Proof. unfold extract_results, each_node, each_video. repeat halts_step. Qed.

Lemma for_each_polls {A} (xs : list A) (f : A -> M world unit) :
  (forall a w, polls (f a w).1 = polls w) ->
  forall w, polls (for_each xs f w).1 = polls w.
Proof.
  intros Hf. induction xs as [| x xs IH]; intros w; simpl; [done |].
  unfold bind. specialize (Hf x w).
  destruct (f x w) as [w1 [[] | e |]]; simpl in *; [| done | done].
  by rewrite IH.
Qed.

Lemma bind_eval_polls {A B} (r : reply A) (f : A -> M world B) w :
  (forall a, polls (f a w).1 = polls w) ->
  polls (bind (eval r) f w).1 = polls w.
Proof. intros Hf. unfold bind, eval. destruct r; simpl; [apply Hf | done]. Qed.

Lemma extract_results_polls record w :
  polls (extract_results record w).1 = polls w.
Proof.
  unfold extract_results.
  apply bind_eval_polls; intros outputs.
  apply bind_eval_polls; intros node_ids.
  apply for_each_polls; clear w; intros node_id w.
  apply bind_eval_polls; intros slot.
  apply bind_eval_polls; intros [|]; [| done].
  apply bind_eval_polls; intros slot'.
  apply bind_eval_polls; intros videos.
  apply bind_eval_polls; intros items.
  apply for_each_polls; clear w; intros video w.
  apply bind_eval_polls; intros filename.
  unfold print. by destruct (encodes _).
Qed.

Lemma count_app p (t u : list event) : count p (t ++ u) = count p t + count p u.
Proof. unfold count. by rewrite List.filter_app, length_app. Qed.

Lemma count_none (P p : event -> bool) (t : list event) :
  (forall e, P e = true -> p e = false) -> forallb P t = true -> count p t = 0.
Proof.
  intros HPp. unfold count. induction t as [| e t IH]; simpl; [done |].
  intros [He Ht]%andb_prop. rewrite (HPp e He). by apply IH.
Qed.

Lemma count_retries p id n :
  count p (concat (repeat (retry id) n)) = n * count p (retry id).
Proof.
  induction n as [| n IH]; simpl; [done |].
  change (HttpGet (history_url id) :: Sleep 5%Z :: concat (repeat (retry id) n))
    with (retry id ++ concat (repeat (retry id) n)).
  rewrite count_app, IH. done.
Qed.

(** *** The polling loop *)

(** A turn that does not find the identifier leaves a GET and a sleep on
    the trace and starts the next turn. *)
Lemma poll_loop_retry net id fuel w :
  omits id (history_reply net (polls w)) = true ->
  poll_loop net (S fuel) (VStr id) w =
  poll_loop net fuel (VStr id)
    {| trace := trace w ++ retry (VStr id); polls := S (polls w) |}.
Proof.
  intros Hk. simpl. unfold bind at 1. unfold check_status at 1.
  destruct (history_reply net (polls w)) as [[| | | | | | d] | e]; try done.
  simpl in Hk. apply negb_true_iff in Hk.
  unfold bind, eval, contains, ret, sleep, emit. rewrite Hk. simpl.
  by rewrite <- app_assoc.
Qed.

Lemma poll_loop_retries net id n : forall fuel w,
  (forall k, k < n -> omits id (history_reply net (polls w + k)) = true) ->
  poll_loop net (n + fuel) (VStr id) w =
  poll_loop net fuel (VStr id)
    {| trace := trace w ++ concat (repeat (retry (VStr id)) n);
       polls := polls w + n |}.
Proof.
  induction n as [| n IH]; intros fuel w Hn.
  - simpl. rewrite app_nil_r, Nat.add_0_r. by destruct w.
  - change (S n + fuel) with (S (n + fuel)).
    rewrite poll_loop_retry.
    2: { specialize (Hn 0). rewrite Nat.add_0_r in Hn. apply Hn. lia. }
    rewrite IH; simpl.
    + rewrite <- app_assoc, Nat.add_succ_r. done.
    + intros k Hk. specialize (Hn (S k)). rewrite Nat.add_succ_r in Hn.
      apply Hn. lia.
Qed.

(** The turn that finds the identifier: one GET, the completion line,
    then whatever extraction prints; the loop is left, by [break] or by an
    exception. *)
Lemma poll_loop_found net id fuel w :
  lists id (history_reply net (polls w)) = true ->
  exists t r,
    poll_loop net (S fuel) (VStr id) w =
      ({| trace := trace w ++ HttpGet (history_url (VStr id)) ::
                              Print [Lit "Generation complete!"] :: t;
          polls := S (polls w) |}, r) /\
    r <> Pending /\ forallb is_print t = true.
Proof.
  intros Hk. simpl. unfold bind at 1. unfold check_status at 1.
  destruct (history_reply net (polls w)) as [[| | | | | | d] | e]; try done.
  simpl in Hk.
  unfold bind at 1. unfold eval at 1, contains, ret. rewrite Hk.
  unfold bind at 1. unfold print at 1. cbn [encodes forallb printable_part andb]. unfold emit. simpl trace. simpl polls.
  set (w1 := {| trace := _; polls := _ |}).
  unfold dict_has in Hk. unfold getitem.
  destruct (dict_get id d) as [record |]; [| done].
  unfold bind, eval, ret.
  destruct (extract_results_emits record w1) as (t & Ht & HP).
  pose proof (extract_results_halts record w1) as Hh.
  pose proof (extract_results_polls record w1) as Hp.
  destruct (extract_results record w1) as [[t3 p3] r]. simpl in *.
  exists t, r. split; [| done].
  subst. by rewrite <- !app_assoc.
Qed.

(** C1.  Whatever the server answers: when the first [n] history answers
    are mappings without the job identifier and the next one is a mapping
    that has it as a key, the polling loop ends (it needs no more than
    [n + 1] turns), having sent exactly [n + 1] GET requests, one per
    answer, and slept [n] times; after the last GET it only prints. *)
Theorem poll_loop_stops_at_first_ready net id n fuel w :
  (forall k, k < n -> omits id (history_reply net (polls w + k)) = true) ->
  lists id (history_reply net (polls w + n)) = true ->
  n < fuel ->
  exists t t' r,
    poll_loop net fuel (VStr id) w =
      ({| trace := trace w ++ t; polls := polls w + S n |}, r) /\
    r <> Pending /\
    count is_get t = S n /\
    count is_sleep t = n /\
    t = concat (repeat (retry (VStr id)) n) ++
        HttpGet (history_url (VStr id)) ::
        Print [Lit "Generation complete!"] :: t' /\
    forallb is_print t' = true.
Proof.
  intros Habsent Hready Hfuel.
  replace fuel with (n + S (fuel - S n)) by lia.
  rewrite poll_loop_retries by done.
  set (wn := {| trace := _; polls := _ |}).
  destruct (poll_loop_found net id (fuel - S n) wn Hready)
    as (t' & r & Hrun & Hr & Hprints).
  exists (concat (repeat (retry (VStr id)) n) ++
          HttpGet (history_url (VStr id)) ::
          Print [Lit "Generation complete!"] :: t'), t', r.
  split; [| split; [done | split; [| split; [| done]]]].
  - rewrite Hrun. subst wn. simpl. by rewrite <- app_assoc, Nat.add_succ_r.
  - rewrite count_app, count_retries.
    change (count is_get (retry (VStr id))) with 1.
    change (count is_get (?a :: ?b :: t')) with (S (count is_get t')).
    rewrite (count_none is_print is_get t') by (done || by intros []).
    lia.
  - rewrite count_app, count_retries.
    change (count is_sleep (retry (VStr id))) with 1.
    change (count is_sleep (?a :: ?b :: t')) with (count is_sleep t').
    rewrite (count_none is_print is_sleep t') by (done || by intros []).
    lia.
Qed.

(** Three answers without the job, then the job: four requests. *)
Lemma poll_loop_stops_at_first_ready_witness :
  exists t t' r,
    poll_loop ready_after_three 4 (VStr "abc") start =
      ({| trace := trace start ++ t; polls := polls start + 4 |}, r) /\
    r <> Pending /\
    count is_get t = 4 /\
    count is_sleep t = 3 /\
    t = concat (repeat (retry (VStr "abc")) 3) ++
        HttpGet (history_url (VStr "abc")) ::
        Print [Lit "Generation complete!"] :: t' /\
    forallb is_print t' = true.
Proof.
  apply (poll_loop_stops_at_first_ready ready_after_three "abc" 3 4 start).
  - intros k Hk. destruct k as [| [| [| k]]]; [reflexivity .. | lia].
  - reflexivity.
  - lia.
Defined.

Example four_requests_then_stop :
  let r := run ready_after_three 4 in
  count is_get r.1 = 4 /\ r.2 = Exited 0.
Proof. by vm_compute. Qed.

(** C8.  As long as every history answer is a mapping without the job
    identifier, the loop does not stop: however many turns it is given, it
    is still running after them, and each turn was one GET followed by a
    sleep of 5. *)
Theorem poll_loop_never_stops net id w :
  (forall k, omits id (history_reply net (polls w + k)) = true) ->
  forall turns,
    poll_loop net turns (VStr id) w =
      ({| trace := trace w ++ concat (repeat (retry (VStr id)) turns);
          polls := polls w + turns |}, Pending).
Proof.
  intros Habsent turns.
  rewrite <- (Nat.add_0_r turns) at 1.
  rewrite poll_loop_retries by (intros; apply Habsent).
  reflexivity.
Qed.

Lemma poll_loop_never_stops_witness :
  poll_loop never_ready 7 (VStr "abc") start =
    ({| trace := trace start ++ concat (repeat (retry (VStr "abc")) 7);
        polls := polls start + 7 |}, Pending).
Proof.
  apply (poll_loop_never_stops never_ready "abc" start).
  intros k. reflexivity.
Defined.

Example never_ready_still_running :
  let r := run never_ready 9 in
  count is_get r.1 = 9 /\ count is_sleep r.1 = 9 /\ r.2 = Running.
Proof. by vm_compute. Qed.

(** *** Result extraction *)

Lemma dict_get_NoDup (d : list (string * value)) k v :
  NoDup (dict_keys d) -> In (k, v) d -> dict_get k d = Some v.
Proof.
  induction d as [| [k' v'] d IH]; simpl; [done |].
  intros [Hk' Hd]%NoDup_cons [Heq | Hin].
  - injection Heq as -> ->. by rewrite String.eqb_refl.
  - destruct (String.eqb_spec k k') as [-> | _]; [| by apply IH].
    exfalso. apply Hk'. apply list_elem_of_In.
    change k' with (k', v).1. by apply in_map.
Qed.

Lemma each_video_lines vs : forall w,
  forallb is_descriptor vs = true ->
  forallb (fun v => printable (filename_of v)) vs = true ->
  for_each vs each_video w =
    ({| trace := trace w ++ map (fun v => video_line (filename_of v)) vs;
        polls := polls w |}, Return tt).
Proof.
  induction vs as [| v vs IH]; intros w; simpl.
  - intros _ _. rewrite app_nil_r. by destruct w.
  - intros [Hv Hvs]%andb_prop [Hp Hps]%andb_prop.
    destruct v as [| | | | | | dv]; try done.
    unfold is_descriptor, dict_has in Hv. unfold filename_of in Hp.
    unfold bind at 1. unfold each_video at 1.
    unfold bind, eval, getitem, filename_of, print.
    destruct (dict_get "filename" dv) as [f |]; [| done].
    simpl in Hp. simpl. rewrite Hp. simpl.
    rewrite IH by done. simpl. by rewrite <- app_assoc.
Qed.

Lemma each_node_lines outs k slot w :
  dict_get k outs = Some slot ->
  slot_ok slot = true ->
  forallb (fun v => printable (filename_of v)) (videos_of slot) = true ->
  each_node (VDict outs) (VStr k) w =
    ({| trace := trace w ++ map (fun v => video_line (filename_of v))
                                (videos_of slot);
        polls := polls w |}, Return tt).
Proof.
  intros Hget Hok Hp. unfold each_node, bind, eval, getitem. rewrite Hget.
  destruct slot as [| | | | | | m]; try done.
  simpl in *. unfold dict_has.
  destruct (dict_get "videos" m) as [[| | | | | vs |] |]; try done; simpl.
  - by apply each_video_lines.
  - rewrite app_nil_r. by destruct w.
Qed.

Lemma each_node_loop outs rest : forall w,
  (forall k slot, In (k, slot) rest -> dict_get k outs = Some slot) ->
  outputs_ok rest = true ->
  outputs_printable rest = true ->
  for_each (map VStr (dict_keys rest)) (each_node (VDict outs)) w =
    ({| trace := trace w ++ video_lines rest; polls := polls w |}, Return tt).
Proof.
  induction rest as [| [k slot] rest IH]; intros w Hin; simpl.
  - intros _ _. rewrite app_nil_r. by destruct w.
  - intros [Hslot Hrest]%andb_prop [Hp Hps]%andb_prop. simpl in Hslot, Hp.
    unfold bind at 1.
    rewrite (each_node_lines outs k slot) by (done || apply Hin; by left).
    rewrite IH by (done || intros; apply Hin; by right).
    simpl. by rewrite <- app_assoc.
Qed.

Lemma video_lines_length outs :
  length (video_lines outs) =
  sum_list (map (fun kv => length (videos_of kv.2)) outs).
Proof.
  induction outs as [| [k slot] outs IH]; simpl; [done |].
  unfold video_lines in *. simpl.
  by rewrite length_app, length_map, IH.
Qed.

Lemma no_videos_lines outs : no_videos outs = true -> video_lines outs = [].
Proof.
  induction outs as [| [k slot] outs IH]; simpl; [done |].
  intros [Hslot Houts]%andb_prop. unfold video_lines in *. simpl.
  rewrite IH by done. rewrite app_nil_r.
  destruct slot as [| | | | | | m]; try done. simpl in *.
  unfold dict_has in Hslot. by destruct (dict_get "videos" m).
Qed.

(** C2, as the code has it.  On a result record whose [outputs] is a
    mapping from node ids to mappings, where whatever a node holds under
    the key [videos] is a list of mappings with a [filename] that
    standard output can encode: extraction returns without an error and
    prints, node by node, one "Video saved as" line for each entry of
    each [videos] list, and nothing else; so it prints nothing when no
    node has the key [videos]. *)
Theorem extract_results_prints_videos r outs w :
  dict_get "outputs" r = Some (VDict outs) ->
  NoDup (dict_keys outs) ->
  outputs_ok outs = true ->
  outputs_printable outs = true ->
  extract_results (VDict r) w =
    ({| trace := trace w ++ video_lines outs; polls := polls w |}, Return tt) /\
  length (video_lines outs) =
    sum_list (map (fun kv => length (videos_of kv.2)) outs) /\
  (no_videos outs = true -> video_lines outs = []).
Proof.
  intros Hr Hdup Hok Hprint. split; [| split].
  - unfold extract_results.
    unfold bind at 1. unfold eval at 1, getitem. rewrite Hr.
    unfold bind at 1. simpl.
    apply each_node_loop; [| done | done].
    intros k slot Hin. by apply dict_get_NoDup.
  - apply video_lines_length.
  - apply no_videos_lines.
Qed.

Lemma extract_results_prints_videos_witness :
  extract_results two_videos start =
    ({| trace := trace start ++ video_lines two_videos_outputs;
        polls := polls start |}, Return tt) /\
  length (video_lines two_videos_outputs) =
    sum_list (map (fun kv => length (videos_of kv.2)) two_videos_outputs) /\
  (no_videos two_videos_outputs = true -> video_lines two_videos_outputs = []).
Proof.
  apply (extract_results_prints_videos
           [("outputs", VDict two_videos_outputs)] two_videos_outputs start).
  - reflexivity.
  - apply NoDup_cons. split; [by intros [= ]%list_elem_of_singleton |].
    apply NoDup_singleton.
  - reflexivity.
  - reflexivity.
Defined.

(** A file name that standard output cannot encode: the line before it
    is printed, then [print] raises and the third name is never reached. *)
Example surrogate_name_stops_extraction :
  extract_results surrogate_video start =
    ({| trace := [video_line (VStr "a.mp4")]; polls := 0 |},
     Raise UnicodeEncodeError).
Proof. reflexivity. Qed.

Example two_videos_two_lines :
  extract_results two_videos start =
    ({| trace := [video_line (VStr "splash_gen_00001.mp4");
                  video_line (VStr "splash_gen_00002.mp4")];
        polls := 0 |}, Return tt).
Proof. reflexivity. Qed.

(** C2, as the specification words it, fails: a node that lists its file
    under [images] holds a slot that is a list with a filename entry, one
    artifact descriptor, and extraction prints no line for it. *)
Lemma images_slot_not_printed :
  length (spec_artifacts images_only) = 1 /\
  extract_results images_only start = (start, Return tt).
Proof. split; reflexivity. Qed.

(** *** Submission and the handler *)

(** The [try] statement, read off the outcome of its suite. *)
Lemma run_of_body net fuel :
  run net fuel =
  match body net fuel start with
  | (w, Raise e) =>
      if is_Exception e then (trace w ++ [error_line e], Exited 0)
      else (trace w, interpreter_exit (Raise e))
  | (w, r) => (trace w, interpreter_exit r)
  end.
Proof.
  unfold run, script, try_except_Exception.
  destruct (body net fuel start) as [w [[] | e |]]; try reflexivity.
  by destruct (is_Exception e).
Qed.

(** The suite, read off the answer to the submission. *)
Lemma flow_of_submitted net job fuel :
  flow net job fuel start =
  match submitted net with
  | Ok prompt_id =>
      if printable prompt_id then
        poll_loop net fuel prompt_id
          {| trace := announced job prompt_id; polls := 0 |}
      else ({| trace := submission job; polls := 0 |}, Raise UnicodeEncodeError)
  | Err e => ({| trace := submission job; polls := 0 |}, Raise e)
  end.
Proof.
  unfold flow, submitted, queue_prompt, bind, print, emit, eval, ret, raise.
  simpl. destruct (prompt_reply net) as [result | e]; [| done].
  destruct (getitem result (VStr "prompt_id")) as [prompt_id | e]; [| done].
  rewrite andb_true_r. by destruct (printable prompt_id).
Qed.

Lemma body_of_submitted net fuel :
  body net fuel start =
  match submitted net with
  | Ok prompt_id =>
      if printable prompt_id then
        poll_loop net fuel prompt_id {| trace := queued prompt_id; polls := 0 |}
      else ({| trace := not_queued; polls := 0 |}, Raise UnicodeEncodeError)
  | Err e => ({| trace := not_queued; polls := 0 |}, Raise e)
  end.
Proof. apply (flow_of_submitted net workflow fuel). Qed.

Lemma poll_loop_emits net prompt_id fuel :
  emits (fun e => negb (is_post e)) (poll_loop net fuel prompt_id).
Proof.
  induction fuel as [| fuel IH]; simpl; [apply emits_pending |].
  apply emits_bind.
  { intros w. exists [HttpGet (history_url prompt_id)]. by simpl. }
  intros history. apply emits_bind; [apply emits_eval |].
  intros [|].
  - apply emits_bind; [by apply emits_print | intros _].
    apply emits_bind; [apply emits_eval | intros record].
    apply (emits_weaken is_print); [by intros [] | apply extract_results_emits].
  - unfold sleep. apply emits_bind; [by apply emits_emit | intros _; apply IH].
Qed.


(** An identifier that standard output cannot encode: the line that
    reports it raises, the handler prints the error and no GET is sent. *)
Example surrogate_identifier_is_not_polled :
  let net := {| prompt_reply := Ok (VDict [("prompt_id", VStr surrogate_name)]);
                history_reply := fun _ => Ok (VDict []) |} in
  run net 3 = (not_queued ++ [error_line UnicodeEncodeError], Exited 0).
Proof. reflexivity. Qed.


(** C7, as the code has it.  An exception that derives from [Exception],
    raised anywhere in the [try] suite, is caught by the one handler: the
    run prints the error line after what was done so far and exits with
    status 0. *)
Theorem Exception_is_caught net fuel w e :
  body net fuel start = (w, Raise e) ->
  is_Exception e = true ->
  run net fuel = (trace w ++ [error_line e], Exited 0).
Proof.
  intros Hbody He. rewrite run_of_body, Hbody, He. reflexivity.
Qed.

Lemma Exception_is_caught_witness :
  run refused 1 =
    (not_queued ++
     [error_line (LibraryError "URLError" "Connection refused")], Exited 0).
Proof.
  apply (Exception_is_caught refused 1 {| trace := not_queued; polls := 0 |}
           (LibraryError "URLError" "Connection refused")); reflexivity.
Defined.

(** C7, as the specification words it, fails: [KeyboardInterrupt] is an
    exception raised in the suite that the handler does not catch; no
    error line is printed and the run ends in a traceback. *)
Lemma KeyboardInterrupt_not_caught :
  body interrupted 1 start =
    ({| trace := not_queued; polls := 0 |}, Raise KeyboardInterrupt) /\
  run interrupted 1 = (not_queued, Traceback KeyboardInterrupt).
Proof. split; reflexivity. Qed.

(** *** Turns of the loop, for any identifier and any answer *)

Lemma poll_loop_retry_any net prompt_id fuel w :
  misses prompt_id (history_reply net (polls w)) = true ->
  poll_loop net (S fuel) prompt_id w =
  poll_loop net fuel prompt_id
    {| trace := trace w ++ retry prompt_id; polls := S (polls w) |}.
Proof.
  intros Hk. simpl. unfold bind at 1. unfold check_status at 1.
  unfold misses in Hk.
  destruct (history_reply net (polls w)) as [history | e]; [| done].
  unfold bind at 1. unfold eval at 1.
  destruct (contains prompt_id history) as [[|] | e]; try done.
  unfold ret, bind, sleep, emit. simpl. by rewrite <- app_assoc.
Qed.

Lemma poll_loop_retries_any net prompt_id n : forall fuel w,
  (forall k, k < n ->
     misses prompt_id (history_reply net (polls w + k)) = true) ->
  poll_loop net (n + fuel) prompt_id w =
  poll_loop net fuel prompt_id
    {| trace := trace w ++ concat (repeat (retry prompt_id) n);
       polls := polls w + n |}.
Proof.
  induction n as [| n IH]; intros fuel w Hn.
  - simpl. rewrite app_nil_r, Nat.add_0_r. by destruct w.
  - change (S n + fuel) with (S (n + fuel)).
    rewrite poll_loop_retry_any.
    2: { specialize (Hn 0). rewrite Nat.add_0_r in Hn. apply Hn. lia. }
    rewrite IH; simpl.
    + rewrite <- app_assoc, Nat.add_succ_r. done.
    + intros k Hk. specialize (Hn (S k)). rewrite Nat.add_succ_r in Hn.
      apply Hn. lia.
Qed.

Lemma omits_misses id r : omits id r = true -> misses (VStr id) r = true.
Proof.
  destruct r as [[| | | | | | d] | e]; simpl; try done.
  all: by destruct (dict_has id d).
Qed.

Lemma poll_loop_turn_fails net prompt_id fuel w e :
  turn_failure prompt_id (history_reply net (polls w)) = Some e ->
  poll_loop net (S fuel) prompt_id w =
    ({| trace := trace w ++ [HttpGet (history_url prompt_id)];
        polls := S (polls w) |}, Raise e).
Proof.
  intros Hk. simpl. unfold bind at 1. unfold check_status at 1.
  unfold turn_failure in Hk.
  destruct (history_reply net (polls w)) as [history | e']; [| congruence].
  unfold bind, eval.
  destruct (contains prompt_id history) as [b | e']; [done |].
  unfold raise. congruence.
Qed.

(** After [n] answers without the identifier the loop is in its turn
    [n + 1], with [n] GETs and [n] sleeps behind it. *)
Lemma poll_loop_after_retries net id n fuel w :
  (forall k, k < n -> omits id (history_reply net (polls w + k)) = true) ->
  n < fuel ->
  poll_loop net fuel (VStr id) w =
  poll_loop net (S (fuel - S n)) (VStr id)
    {| trace := trace w ++ concat (repeat (retry (VStr id)) n);
       polls := polls w + n |}.
Proof.
  intros Habsent Hfuel.
  replace fuel with (n + S (fuel - S n)) at 1 by lia.
  apply poll_loop_retries_any. intros k Hk. by apply omits_misses, Habsent.
Qed.

(** X1.  A history request that raises is not retried: after [n] answers
    without the identifier, an exception from request [n + 1] leaves the
    loop at once, with exactly [n + 1] GETs and [n] sleeps on the trace. *)
Theorem poll_loop_request_raises net id n fuel w e :
  (forall k, k < n -> omits id (history_reply net (polls w + k)) = true) ->
  history_reply net (polls w + n) = Err e ->
  n < fuel ->
  poll_loop net fuel (VStr id) w =
    ({| trace := trace w ++ concat (repeat (retry (VStr id)) n) ++
                            [HttpGet (history_url (VStr id))];
        polls := polls w + S n |}, Raise e).
Proof.
  intros Habsent Hraise Hfuel.
  rewrite (poll_loop_after_retries net id n) by done.
  rewrite (poll_loop_turn_fails _ _ _ _ e) by (simpl; by rewrite Hraise).
  simpl. by rewrite <- app_assoc, Nat.add_succ_r.
Qed.

Lemma poll_loop_request_raises_witness :
  poll_loop drops_on_third 5 (VStr "abc") start =
    ({| trace := trace start ++ concat (repeat (retry (VStr "abc")) 2) ++
                                [HttpGet (history_url (VStr "abc"))];
        polls := polls start + 3 |},
     Raise (LibraryError "URLError" "Connection reset by peer")).
Proof.
  apply (poll_loop_request_raises drops_on_third "abc" 2 5 start).
  - intros k Hk. destruct k as [| [| k]]; [reflexivity .. | lia].
  - reflexivity.
  - lia.
Defined.

(** X2.  A history answer that is no container ([null], a boolean, a
    number) stops the loop with a [TypeError] from the membership test:
    the request is counted, nothing more is printed, no sleep follows. *)
Theorem poll_loop_scalar_answer net id n fuel w v :
  (forall k, k < n -> omits id (history_reply net (polls w + k)) = true) ->
  history_reply net (polls w + n) = Ok v ->
  scalar v = true ->
  n < fuel ->
  poll_loop net fuel (VStr id) w =
    ({| trace := trace w ++ concat (repeat (retry (VStr id)) n) ++
                            [HttpGet (history_url (VStr id))];
        polls := polls w + S n |}, Raise TypeError).
Proof.
  intros Habsent Hanswer Hv Hfuel.
  rewrite (poll_loop_after_retries net id n) by done.
  rewrite (poll_loop_turn_fails _ _ _ _ TypeError).
  - simpl. by rewrite <- app_assoc, Nat.add_succ_r.
  - simpl. rewrite Hanswer. by destruct v.
Qed.

Lemma poll_loop_scalar_answer_witness :
  poll_loop null_on_third 5 (VStr "abc") start =
    ({| trace := trace start ++ concat (repeat (retry (VStr "abc")) 2) ++
                                [HttpGet (history_url (VStr "abc"))];
        polls := polls start + 3 |}, Raise TypeError).
Proof.
  apply (poll_loop_scalar_answer null_on_third "abc" 2 5 start VNone).
  - intros k Hk. destruct k as [| [| k]]; [reflexivity .. | lia].
  - reflexivity.
  - reflexivity.
  - lia.
Defined.

(** X3.  A job that is listed without an [outputs] field: the completion
    line is printed first, then the lookup raises [KeyError] for
    [outputs], and the loop is left without another request. *)
Theorem poll_loop_record_without_outputs net id n fuel w h r :
  (forall k, k < n -> omits id (history_reply net (polls w + k)) = true) ->
  history_reply net (polls w + n) = Ok (VDict h) ->
  dict_get id h = Some (VDict r) ->
  dict_has "outputs" r = false ->
  n < fuel ->
  poll_loop net fuel (VStr id) w =
    ({| trace := trace w ++ concat (repeat (retry (VStr id)) n) ++
                            [HttpGet (history_url (VStr id)); completion_line];
        polls := polls w + S n |}, Raise (KeyError (VStr "outputs"))).
Proof.
  intros Habsent Hanswer Hrecord Houtputs Hfuel.
  rewrite (poll_loop_after_retries net id n) by done.
  simpl. unfold bind at 1. unfold check_status at 1. simpl polls.
  rewrite Hanswer.
  unfold bind, eval, contains, getitem, dict_has, ret, print, emit.
  rewrite Hrecord. simpl.
  unfold extract_results, bind, eval, getitem.
  unfold dict_has in Houtputs.
  destruct (dict_get "outputs" r); [done |]. simpl.
  by rewrite <- !app_assoc, Nat.add_succ_r.
Qed.

Lemma poll_loop_record_without_outputs_witness :
  poll_loop no_outputs 3 (VStr "abc") start =
    ({| trace := trace start ++ concat (repeat (retry (VStr "abc")) 1) ++
                 [HttpGet (history_url (VStr "abc")); completion_line];
        polls := polls start + 2 |}, Raise (KeyError (VStr "outputs"))).
Proof.
  apply (poll_loop_record_without_outputs no_outputs "abc" 1 3 start
           [("abc", VDict [("status", VStr "success")])]
           [("status", VStr "success")]).
  - intros k Hk. destruct k as [| k]; [reflexivity | lia].
  - reflexivity.
  - reflexivity.
  - reflexivity.
  - lia.
Defined.

(** *** Identifiers that are no strings *)

(** X4.  The identifier is used as the server sent it.  When it is
    [null], a boolean or a number, no mapping has it as a key (the keys of
    decoded JSON are strings), so against a server whose history answers
    are mappings the run polls for ever: after any number of turns it is
    still running, whatever those mappings list. *)
Theorem scalar_identifier_never_found net prompt_id :
  submitted net = Ok prompt_id ->
  scalar prompt_id = true ->
  (forall k, answers_mapping (history_reply net k) = true) ->
  forall turns,
    run net turns =
      (queued prompt_id ++ concat (repeat (retry prompt_id) turns), Running).
Proof.
  intros Hsub Hid Hmaps turns.
  rewrite run_of_body, body_of_submitted, Hsub.
  replace (printable prompt_id) with true by (by destruct prompt_id).
  rewrite <- (Nat.add_0_r turns) at 1.
  rewrite poll_loop_retries_any; [reflexivity |].
  intros k _. specialize (Hmaps (0 + k)). simpl polls.
  destruct (history_reply net (0 + k)) as [[| | | | | | d] | e]; try done.
  by destruct prompt_id.
Qed.

Lemma scalar_identifier_never_found_witness :
  run numeric_identifier 6 =
    (queued (VInt 7) ++ concat (repeat (retry (VInt 7)) 6), Running).
Proof.
  apply (scalar_identifier_never_found numeric_identifier (VInt 7)).
  - reflexivity.
  - reflexivity.
  - intros k. reflexivity.
Defined.

(** X5.  When the identifier is a list or a mapping, the first history
    answer that is a mapping makes the membership test raise [TypeError]:
    one GET is sent, the error line follows, the run exits with 0. *)
Theorem unhashable_identifier_fails net prompt_id fuel :
  submitted net = Ok prompt_id ->
  unhashable prompt_id = true ->
  answers_mapping (history_reply net 0) = true ->
  0 < fuel ->
  run net fuel =
    (queued prompt_id ++ [HttpGet (history_url prompt_id); error_line TypeError],
     Exited 0).
Proof.
  intros Hsub Hid Hmap Hfuel.
  rewrite run_of_body, body_of_submitted, Hsub.
  replace (printable prompt_id) with true by (by destruct prompt_id).
  destruct fuel as [| fuel]; [lia |].
  rewrite (poll_loop_turn_fails _ _ _ _ TypeError).
  - reflexivity.
  - simpl. destruct (history_reply net 0) as [[| | | | | | d] | e]; try done.
    by destruct prompt_id.
Qed.

Lemma unhashable_identifier_fails_witness :
  run list_identifier 4 =
    (queued (VList [VStr "abc"]) ++
     [HttpGet (history_url (VList [VStr "abc"])); error_line TypeError],
     Exited 0).
Proof.
  apply (unhashable_identifier_fails list_identifier (VList [VStr "abc"]) 4).
  - reflexivity.
  - reflexivity.
  - reflexivity.
  - lia.
Defined.

(** *** Submissions that give no identifier *)

(** X6.  A submission answered with a mapping that has no [prompt_id]
    key ends the run at once: the error line carries the [KeyError] for
    [prompt_id], no history request is sent, the exit status is 0. *)
Theorem missing_prompt_id_reported net fuel d :
  prompt_reply net = Ok (VDict d) ->
  dict_has "prompt_id" d = false ->
  run net fuel =
    (not_queued ++ [error_line (KeyError (VStr "prompt_id"))], Exited 0).
Proof.
  intros Hreply Hkey.
  rewrite run_of_body, body_of_submitted. unfold submitted. rewrite Hreply.
  unfold getitem. unfold dict_has in Hkey.
  by destruct (dict_get "prompt_id" d).
Qed.

Lemma missing_prompt_id_reported_witness :
  run rejected 4 =
    (not_queued ++ [error_line (KeyError (VStr "prompt_id"))], Exited 0).
Proof.
  apply (missing_prompt_id_reported rejected 4
           [("error", VStr "invalid prompt")]); reflexivity.
Defined.

(** X7.  A submission answered with JSON that is no mapping (a list, a
    string, a number, [null]) ends the run the same way, with a
    [TypeError] from the subscript. *)
Theorem non_mapping_submission_reported net fuel v :
  prompt_reply net = Ok v ->
  is_mapping v = false ->
  run net fuel = (not_queued ++ [error_line TypeError], Exited 0).
Proof.
  intros Hreply Hv.
  rewrite run_of_body, body_of_submitted. unfold submitted. rewrite Hreply.
  by destruct v.
Qed.

Lemma non_mapping_submission_reported_witness :
  run answers_list 4 = (not_queued ++ [error_line TypeError], Exited 0).
Proof.
  apply (non_mapping_submission_reported answers_list 4 (VList [VStr "abc"]));
    reflexivity.
Defined.

(** *** The whole run *)

Lemma extract_results_lines r outs w :
  dict_get "outputs" r = Some (VDict outs) ->
  NoDup (dict_keys outs) ->
  outputs_ok outs = true ->
  outputs_printable outs = true ->
  extract_results (VDict r) w =
    ({| trace := trace w ++ video_lines outs; polls := polls w |}, Return tt).
Proof.
  intros Hr Hdup Hok Hprint. unfold extract_results.
  unfold bind at 1. unfold eval at 1, getitem. rewrite Hr.
  unfold bind at 1. simpl.
  apply each_node_loop; [| done | done].
  intros k slot Hin. by apply dict_get_NoDup.
Qed.

(** X8.  The run from its first line to its last, when all goes well:
    the server answers the submission with a string identifier, [n]
    history answers do not list it, the next one lists a record of the
    expected form, and standard output can encode the identifier and the
    file names.  The trace is the submission, [n] times a GET and a
    sleep of 5, one more GET, the completion line and one line per video;
    nothing follows, and the exit status is 0. *)
Theorem run_completes net id n fuel d h r outs :
  prompt_reply net = Ok (VDict d) ->
  dict_get "prompt_id" d = Some (VStr id) ->
  printable (VStr id) = true ->
  outputs_printable outs = true ->
  (forall k, k < n -> omits id (history_reply net k) = true) ->
  history_reply net n = Ok (VDict h) ->
  dict_get id h = Some (VDict r) ->
  dict_get "outputs" r = Some (VDict outs) ->
  NoDup (dict_keys outs) ->
  outputs_ok outs = true ->
  n < fuel ->
  run net fuel =
    (queued (VStr id) ++ concat (repeat (retry (VStr id)) n) ++
     [HttpGet (history_url (VStr id)); completion_line] ++ video_lines outs,
     Exited 0).
Proof.
  intros Hreply Hid Hpid Hpnames Habsent Hanswer Hrecord Houts Hdup Hok Hfuel.
  rewrite run_of_body, body_of_submitted. unfold submitted. rewrite Hreply.
  unfold getitem at 1. rewrite Hid, Hpid.
  rewrite (poll_loop_after_retries net id n) by done.
  simpl poll_loop. unfold bind at 1. unfold check_status at 1. simpl polls.
  rewrite Hanswer.
  unfold bind at 1. unfold eval at 1, contains, dict_has. rewrite Hrecord.
  unfold ret at 1. unfold bind at 1. unfold print at 1. cbn [encodes forallb printable_part andb]. unfold emit.
  unfold bind at 1. unfold eval at 1, getitem at 1. rewrite Hrecord.
  unfold ret at 1. rewrite (extract_results_lines r outs) by done.
  simpl. by rewrite <- !app_assoc.
Qed.

Lemma run_completes_witness :
  run ready_after_one 2 =
    (queued (VStr "abc") ++ concat (repeat (retry (VStr "abc")) 1) ++
     [HttpGet (history_url (VStr "abc")); completion_line] ++
     video_lines two_videos_outputs,
     Exited 0).
Proof.
  apply (run_completes ready_after_one "abc" 1 2
           [("prompt_id", VStr "abc")]
           [("abc", two_videos)]
           [("outputs", VDict two_videos_outputs)]
           two_videos_outputs).
  - reflexivity.
  - reflexivity.
  - reflexivity.
  - reflexivity.
  - intros k Hk. destruct k as [| k]; [reflexivity | lia].
  - reflexivity.
  - reflexivity.
  - reflexivity.
  - apply NoDup_cons. split; [by intros [= ]%list_elem_of_singleton |].
    apply NoDup_singleton.
  - reflexivity.
  - lia.
Defined.

(** X9.  The file names are printed as the list is walked.  When an
    entry of a [videos] list is a mapping without [filename], and the
    entries before it have file names that standard output can encode,
    the lines of those entries are already printed, the [KeyError] for
    [filename] is raised there, and the entries after it are never
    looked at. *)
Theorem each_video_stops_at_missing_filename good d rest : forall w,
  forallb is_descriptor good = true ->
  forallb (fun v => printable (filename_of v)) good = true ->
  dict_has "filename" d = false ->
  for_each (good ++ VDict d :: rest) each_video w =
    ({| trace := trace w ++ map (fun v => video_line (filename_of v)) good;
        polls := polls w |}, Raise (KeyError (VStr "filename"))).
Proof.
  induction good as [| v good IH]; intros w; simpl.
  - intros _ _ Hd. unfold bind, each_video, bind, eval, getitem.
    unfold dict_has in Hd. destruct (dict_get "filename" d); [done |].
    simpl. rewrite app_nil_r. by destruct w.
  - intros [Hv Hgood]%andb_prop [Hp Hps]%andb_prop Hd.
    destruct v as [| | | | | | dv]; try done.
    unfold is_descriptor, dict_has in Hv. unfold filename_of in Hp.
    unfold bind at 1. unfold each_video at 1.
    unfold bind, eval, getitem, filename_of, print.
    destruct (dict_get "filename" dv) as [f |]; [| done].
    simpl in Hp. simpl. rewrite Hp. simpl.
    rewrite IH by done. simpl. by rewrite <- app_assoc.
Qed.

Lemma each_video_stops_at_missing_filename_witness :
  for_each ([VDict [("filename", VStr "a.mp4")]] ++
            VDict [("subfolder", VStr "video")] ::
            [VDict [("filename", VStr "c.mp4")]]) each_video start =
    ({| trace := trace start ++
                 map (fun v => video_line (filename_of v))
                     [VDict [("filename", VStr "a.mp4")]];
        polls := polls start |}, Raise (KeyError (VStr "filename"))).
Proof.
  apply (each_video_stops_at_missing_filename
           [VDict [("filename", VStr "a.mp4")]]
           [("subfolder", VStr "video")]
           [VDict [("filename", VStr "c.mp4")]] start); reflexivity.
Defined.

(** *** What holds of every run *)

Lemma poll_loop_trace_shape_of net prompt_id fuel : forall w w' r,
  poll_loop net fuel prompt_id w = (w', r) ->
  exists k t,
    trace w' = trace w ++ concat (repeat (retry prompt_id) k) ++ t /\
    polls w' =
      polls w + count is_get (concat (repeat (retry prompt_id) k) ++ t) /\
    ((t = [] /\ k = fuel /\ r = Pending) \/
     (exists t', t = HttpGet (history_url prompt_id) :: t' /\
                 forallb is_print t' = true /\ k < fuel /\ r <> Pending)).
Proof.
  induction fuel as [| fuel IH]; intros w w' r Hrun.
  { injection Hrun as <- <-. exists 0, []. simpl. rewrite app_nil_r.
    change (count is_get []) with 0. rewrite Nat.add_0_r.
    split; [done |]. split; [done |]. by left. }
  assert (forall t',
            forallb is_print t' = true -> r <> Pending ->
            trace w' = trace w ++ HttpGet (history_url prompt_id) :: t' ->
            polls w' = S (polls w) ->
            exists k t,
              trace w' = trace w ++ concat (repeat (retry prompt_id) k) ++ t /\
              polls w' =
                polls w +
                count is_get (concat (repeat (retry prompt_id) k) ++ t) /\
              ((t = [] /\ k = S fuel /\ r = Pending) \/
               (exists t', t = HttpGet (history_url prompt_id) :: t' /\
                           forallb is_print t' = true /\ k < S fuel /\
                           r <> Pending))) as Hlast.
  { intros t' Hprints Hr Htrace Hpolls.
    exists 0, (HttpGet (history_url prompt_id) :: t'). simpl.
    split; [done |]. split.
    - change (count is_get (?a :: t')) with (S (count is_get t')).
      rewrite (count_none is_print is_get t') by (done || by intros []).
      lia.
    - right. exists t'. split; [done |]. split; [done |]. split; [lia | done]. }
  simpl poll_loop in Hrun. unfold bind at 1 in Hrun.
  unfold check_status at 1 in Hrun.
  destruct (history_reply net (polls w)) as [history | e].
  2: { injection Hrun as <- <-. by apply (Hlast []). }
  unfold bind at 1 in Hrun. unfold eval at 1 in Hrun.
  destruct (contains prompt_id history) as [[|] | e].
  3: { injection Hrun as <- <-. by apply (Hlast []). }
  - unfold ret at 1 in Hrun. unfold bind at 1 in Hrun.
    unfold print at 1 in Hrun. cbn [encodes forallb printable_part andb] in Hrun. unfold emit in Hrun. cbn [trace polls] in Hrun.
    set (w1 := {| trace := _; polls := _ |}) in Hrun.
    unfold bind, eval in Hrun.
    destruct (getitem history prompt_id) as [record | e].
    + unfold ret in Hrun.
      destruct (extract_results_emits record w1) as (t & Ht & HP).
      pose proof (extract_results_halts record w1) as Hh.
      pose proof (extract_results_polls record w1) as Hp.
      rewrite Hrun in Ht, Hh, Hp. cbn [fst snd] in *.
      apply (Hlast (completion_line :: t)); [done | done | |].
      * rewrite Ht. subst w1. cbn [trace]. by rewrite <- !app_assoc.
      * by rewrite Hp.
    + injection Hrun as <- <-.
      apply (Hlast [completion_line]); [done | done | | done].
      subst w1. cbn [trace]. by rewrite <- !app_assoc.
  - unfold ret at 1 in Hrun. unfold bind at 1 in Hrun.
    unfold sleep at 1, emit in Hrun. cbn [trace polls] in Hrun.
    set (w1 := {| trace := _; polls := _ |}) in Hrun.
    destruct (IH w1 w' r Hrun) as (k & t & Htrace & Hpolls & Hend).
    exists (S k), t. rewrite Htrace, Hpolls. subst w1. cbn [trace polls].
    split; [| split].
    + cbn [repeat concat]. by rewrite <- !app_assoc.
    + cbn [repeat concat]. rewrite <- (app_assoc (retry prompt_id)).
      rewrite (count_app is_get (retry prompt_id)).
      change (count is_get (retry prompt_id)) with 1. lia.
    + destruct Hend as [(-> & -> & Hpending) | (t' & -> & Hprints & Hk & Hr)].
      * by left.
      * right. exists t'. split; [done |]. split; [done |].
        split; [lia | done].
Qed.

(** X10.  The pace of the loop, whatever the server answers and whatever
    the identifier is.  What the loop adds to the trace is some number
    [k] of turns, each a GET for the same identifier followed by a sleep
    of 5, and then either nothing (the fuel ran out after [k] turns, the
    loop is still running) or a last GET followed by prints only (the
    loop is over).  So two requests are never sent without a sleep of 5
    between them, nothing is slept after the last request, and the number
    of answers used is the number of GETs sent. *)
Theorem poll_loop_trace_shape net prompt_id fuel w :
  exists k t,
    trace (poll_loop net fuel prompt_id w).1 =
      trace w ++ concat (repeat (retry prompt_id) k) ++ t /\
    polls (poll_loop net fuel prompt_id w).1 =
      polls w + count is_get (concat (repeat (retry prompt_id) k) ++ t) /\
    ((t = [] /\ k = fuel /\ (poll_loop net fuel prompt_id w).2 = Pending) \/
     (exists t', t = HttpGet (history_url prompt_id) :: t' /\
                 forallb is_print t' = true /\ k < fuel /\
                 (poll_loop net fuel prompt_id w).2 <> Pending)).
Proof.
  destruct (poll_loop net fuel prompt_id w) as [w' r] eqn:Hrun.
  apply (poll_loop_trace_shape_of net prompt_id fuel w w' r Hrun).
Qed.

Lemma poll_loop_emits_no_error_line net prompt_id fuel :
  emits (fun e => negb (is_error_line e)) (poll_loop net fuel prompt_id).
Proof.
  induction fuel as [| fuel IH]; simpl; [apply emits_pending |].
  apply emits_bind.
  { intros w. exists [HttpGet (history_url prompt_id)]. by simpl. }
  intros history. apply emits_bind; [apply emits_eval |].
  intros [|].
  - apply emits_bind; [by apply emits_print | intros _].
    apply emits_bind; [apply emits_eval | intros record].
    unfold extract_results, each_node, each_video.
    repeat emits_step.
  - unfold sleep. apply emits_bind; [by apply emits_emit | intros _; apply IH].
Qed.

Lemma body_emits_no_error_line net fuel :
  emits (fun e => negb (is_error_line e)) (body net fuel).
Proof.
  unfold body, flow, queue_prompt.
  apply emits_bind; [by apply emits_print | intros _].
  apply emits_bind.
  { apply emits_bind; [by apply emits_emit | intros _; apply emits_eval]. }
  intros result. apply emits_bind; [apply emits_eval | intros prompt_id].
  apply emits_bind; [by apply emits_print | intros _].
  apply emits_bind; [by apply emits_print | intros _].
  apply poll_loop_emits_no_error_line.
Qed.

(** X11.  The handler leaves its mark once at most.  A run either ends
    with the one error line of its trace, for an exception that derives
    from [Exception], and exits with 0; or its trace has no error line at
    all, and then it has not ended in a traceback unless the exception
    does not derive from [Exception]. *)
Theorem at_most_one_error_line net fuel :
  (exists t e,
     run net fuel = (t ++ [error_line e], Exited 0) /\
     is_Exception e = true /\ count is_error_line t = 0) \/
  (count is_error_line (run net fuel).1 = 0 /\
   forall e, (run net fuel).2 = Traceback e -> is_Exception e = false).
Proof.
  rewrite run_of_body.
  destruct (body_emits_no_error_line net fuel start) as (t & Ht & HP).
  assert (count is_error_line t = 0) as Hnone.
  { apply (count_none (fun e => negb (is_error_line e))); [| done].
    intros e. by destruct (is_error_line e). }
  destruct (body net fuel start) as [w r]. cbn [fst trace start] in Ht.
  rewrite app_nil_l in Ht. subst t.
  destruct r as [[] | e |].
  - right. split; [done |]. intros e. simpl. congruence.
  - destruct (is_Exception e) eqn:He.
    + left. by exists (trace w), e.
    + right. split; [done |]. intros e'. cbn [snd].
      destruct e; simpl; try done; congruence.
  - right. split; [done |]. intros e. simpl. congruence.
Qed.

(** X12.  Every run begins the same way, before anything is known of
    the server: the first line is printed and the workflow is posted,
    as the value of [prompt] in a mapping, to the [/prompt] address; no
    second POST follows. *)
Theorem run_starts_with_submission net fuel :
  exists t, (run net fuel).1 = not_queued ++ t /\ count is_post t = 0.
Proof.
  rewrite run_of_body, body_of_submitted.
  destruct (submitted net) as [prompt_id | e].
  - destruct (printable prompt_id).
    2: { by exists [error_line UnicodeEncodeError]. }
    destruct (poll_loop_emits net prompt_id fuel
                {| trace := queued prompt_id; polls := 0 |}) as (t & Ht & HP).
    assert (count is_post t = 0) as Hnone.
    { apply (count_none (fun e => negb (is_post e))); [| done].
      intros e. by destruct (is_post e). }
    destruct (poll_loop net fuel prompt_id _) as [w r]. cbn [fst trace] in Ht.
    change (queued prompt_id)
      with (not_queued ++ skipn 2 (queued prompt_id)) in Ht.
    rewrite <- app_assoc in Ht.
    destruct r as [[] | e |]; [| destruct (is_Exception e) |]; cbn [fst];
      rewrite Ht, <- ?app_assoc; eexists; (split; [reflexivity |]);
      rewrite ?count_app, Hnone; reflexivity.
  - destruct (is_Exception e); cbn [fst trace].
    + by exists [error_line e].
    + exists []. by rewrite app_nil_r.
Qed.

End ComfyGenFacts.

(** ** Properties of generate_music.py *)

Section GenerateMusicFacts.
Import Py GenerateMusic.
Local Open Scope nat_scope.

(** *** The run, case by case *)

(** The progress line cannot be printed: nothing is sent. *)
Lemma run_prompt_unprintable os prog api_key prompt stem extra post_reply fs :
  printable (VStr prompt) = false ->
  run os (prog :: api_key :: prompt :: stem :: extra) post_reply fs =
    ([], fs, Traceback UnicodeEncodeError).
Proof.
  intros Hp. unfold run, script, bind, print. simpl in *.
  rewrite Hp. simpl. by destruct fs.
Qed.

(** The request is on the trace only if the progress line was printed. *)
Lemma request_made os prog api_key prompt stem extra post_reply fs :
  In (request api_key prompt)
     (run os (prog :: api_key :: prompt :: stem :: extra) post_reply fs).1.1 ->
  printable (VStr prompt) = true.
Proof.
  destruct (printable (VStr prompt)) eqn:Hp; [done |].
  by rewrite run_prompt_unprintable.
Qed.

(** The request raised. *)
Lemma run_request_raises os prog api_key prompt stem extra e fs :
  printable (VStr prompt) = true ->
  run os (prog :: api_key :: prompt :: stem :: extra) (Err e) fs =
    ([generating prompt; request api_key prompt], fs,
     interpreter_exit (Raise e)).
Proof.
  intros Hp. unfold run, script, requests_post, bind, print. simpl in *.
  rewrite Hp. reflexivity.
Qed.

(** The request is answered 200. *)
Lemma run_success os prog api_key prompt stem extra resp fs :
  printable (VStr prompt) = true ->
  status_code resp = 200%Z ->
  run os (prog :: api_key :: prompt :: stem :: extra) (Ok resp) fs =
    match target os (mp3 stem) with
    | Ok f =>
        let fs' := match f with
                   | Some name => <[name := content resp]> fs
                   | None => fs
                   end in
        if printable (VStr stem)
        then ([generating prompt; request api_key prompt; saved stem],
              fs', Exited 0)
        else ([generating prompt; request api_key prompt],
              fs', Traceback UnicodeEncodeError)
    | Err e =>
        ([generating prompt; request api_key prompt], fs,
         interpreter_exit (Raise e))
    end.
Proof.
  intros Hp H200.
  unfold run, script, requests_post, open_wb, write, bind, print.
  simpl in *. rewrite Hp. simpl. rewrite H200. simpl. fold (mp3 stem).
  destruct (target os (mp3 stem)) as [[name |] | e]; simpl.
  - rewrite alter_insert_eq. simpl.
    rewrite andb_true_r. by destruct (negb (has_surrogate stem)).
  - rewrite andb_true_r. by destruct (negb (has_surrogate stem)).
  - reflexivity.
Qed.

(** The request is answered with another status. *)
Lemma run_failure os prog api_key prompt stem extra resp fs :
  printable (VStr prompt) = true ->
  status_code resp <> 200%Z ->
  run os (prog :: api_key :: prompt :: stem :: extra) (Ok resp) fs =
    match text resp with
    | Ok body =>
        if printable (VStr body)
        then ([generating prompt; request api_key prompt;
               failed (status_code resp); Print [Fmt (VStr body)]],
              fs, Exited 0)
        else ([generating prompt; request api_key prompt;
               failed (status_code resp)],
              fs, Traceback UnicodeEncodeError)
    | Err e =>
        ([generating prompt; request api_key prompt;
          failed (status_code resp)],
         fs, interpreter_exit (Raise e))
    end.
Proof.
  intros Hp Hcode%Z.eqb_neq.
  unfold run, script, requests_post, bind, print.
  simpl in *. rewrite Hp. simpl. rewrite Hcode. simpl.
  destruct (text resp) as [body | e]; simpl; [| reflexivity].
  rewrite andb_true_r. by destruct (negb (has_surrogate body)).
Qed.

(** C4.  When the request is made and answered with status 200 and body
    [B], and the filename stem is "out", the run ends normally and leaves
    a file [out.mp3] whose content is exactly [B]. *)
Theorem success_writes_out_mp3 os prog api_key prompt extra resp B fs :
  status_code resp = 200%Z ->
  content resp = B ->
  let r := run os (prog :: api_key :: prompt :: "out" :: extra) (Ok resp) fs in
  In (request api_key prompt) r.1.1 ->
  r.1.2 !! "out.mp3" = Some B /\ r.2 = Exited 0.
Proof.
  intros H200 <- r Hsent. apply request_made in Hsent. subst r.
  rewrite run_success by done. simpl.
  split; [| done]. apply lookup_insert_eq.
Qed.

Lemma success_writes_out_mp3_witness :
  let r := run no_directories
               ["generate_music.py"; "key"; "calm piano"; "out"]
               (Ok audio) ∅ in
  r.1.2 !! "out.mp3" = Some [Byte.x49; Byte.x44; Byte.x33; Byte.x04] /\
  r.2 = Exited 0.
Proof.
  apply (success_writes_out_mp3 no_directories "generate_music.py" "key"
           "calm piano" [] audio [Byte.x49; Byte.x44; Byte.x33; Byte.x04] ∅).
  - reflexivity.
  - reflexivity.
  - simpl. right. by left.
Defined.



(** A stem that leads through a directory that is not there: the request
    is answered 200, [open] raises, no file is written and the run ends
    in a traceback after the request. *)
Example missing_directory_writes_nothing :
  let old : gmap string (list Byte.byte) :=
    {[ "notes.txt" := [Byte.x68; Byte.x69] ]} in
  let r := run no_directories
               ["generate_music.py"; "key"; "calm piano"; "nodir/out"]
               (Ok audio) old in
  status_code audio = 200%Z /\
  r.1.1 = [generating "calm piano"; request "key" "calm piano"] /\
  r.1.2 = old /\
  r.1.2 !! "nodir/out.mp3" = None /\
  r.2 = Traceback
          (LibraryError "FileNotFoundError" "No such file or directory").
Proof. by vm_compute. Qed.

(** C5, as the code has it.  When the request is made and answered with
    any status other than 200, the run creates and changes no file and
    prints the status code after the request.  When moreover
    [response.text] gives a text and standard output can encode it, the
    run prints that text as well, raises nothing and exits with status
    0. *)
Theorem failure_prints_diagnostic os prog api_key prompt stem extra resp fs :
  status_code resp <> 200%Z ->
  let r := run os (prog :: api_key :: prompt :: stem :: extra) (Ok resp) fs in
  In (request api_key prompt) r.1.1 ->
  (r.1.2 = fs /\ In (failed (status_code resp)) r.1.1) /\
  (forall body,
     text resp = Ok body ->
     printable (VStr body) = true ->
     r = ([generating prompt; request api_key prompt;
           failed (status_code resp); Print [Fmt (VStr body)]],
          fs, Exited 0)).
Proof.
  intros Hcode r Hsent. apply request_made in Hsent. subst r.
  rewrite run_failure by done. split.
  - destruct (text resp) as [body | e];
      [destruct (printable (VStr body)) |]; simpl; auto.
  - intros body -> ->. reflexivity.
Qed.

Lemma failure_prints_diagnostic_witness :
  let r := run no_directories
               ["generate_music.py"; "key"; "calm piano"; "out"]
               (Ok unauthorized) ∅ in
  (r.1.2 = ∅ /\ In (failed 401) r.1.1) /\
  (forall body,
     text unauthorized = Ok body ->
     printable (VStr body) = true ->
     r = ([generating "calm piano"; request "key" "calm piano";
           failed 401; Print [Fmt (VStr body)]],
          ∅, Exited 0)).
Proof.
  apply (failure_prints_diagnostic no_directories "generate_music.py" "key"
           "calm piano" "out" [] unauthorized ∅).
  - simpl. lia.
  - simpl. right. by left.
Defined.

Example unauthorized_is_reported :
  run no_directories ["generate_music.py"; "key"; "calm piano"; "out"]
      (Ok unauthorized) ∅ =
    ([generating "calm piano"; request "key" "calm piano";
      failed 401; Print [Fmt (VStr "{}")]], ∅, Exited 0).
Proof. by vm_compute. Qed.

(** C5, as the specification words it, fails: the answer has status 500
    and a body that [response.text] cannot decode; the status code is
    printed, the body text is not, an exception is raised and the run
    ends in a traceback. *)
Lemma undecodable_body_not_printed :
  run no_directories ["generate_music.py"; "key"; "calm piano"; "out"]
      (Ok undecodable) ∅ =
    ([generating "calm piano"; request "key" "calm piano"; failed 500],
     ∅, Traceback (LibraryError "UnicodeError" "undefined encoding")).
Proof. by vm_compute. Qed.

(** C6.  With fewer than three arguments after the script name, the run
    prints the usage line and exits with status 1; nothing else happens,
    no request is sent and no file is touched. *)
Theorem too_few_arguments_exit_1 os prog args post_reply fs :
  length args < 3 ->
  run os (prog :: args) post_reply fs = ([Print [Lit usage]], fs, Exited 1) /\
  List.filter is_post (run os (prog :: args) post_reply fs).1.1 = [].
Proof.
  intros Hlen.
  destruct args as [| a [| b [| c args]]]; simpl in Hlen; try lia; done.
Qed.

Lemma too_few_arguments_exit_1_witness :
  run no_directories ["generate_music.py"; "key"; "calm piano"] (Ok audio) ∅ =
    ([Print [Lit usage]], ∅, Exited 1) /\
  List.filter is_post
    (run no_directories ["generate_music.py"; "key"; "calm piano"]
         (Ok audio) ∅).1.1 = [].
Proof.
  apply (too_few_arguments_exit_1 no_directories "generate_music.py"
           ["key"; "calm piano"] (Ok audio) ∅).
  simpl. lia.
Defined.

(** C10.  Arguments after the third are never read: on a command line
    with at least three arguments, adding more at the end changes
    nothing; the run sends the same request, prints the same lines,
    leaves the same files and ends the same way. *)
Theorem extra_arguments_ignored os argv extra post_reply fs :
  4 <= length argv ->
  run os (argv ++ extra) post_reply fs = run os argv post_reply fs.
Proof.
  intros Hlen.
  destruct argv as [| prog [| api_key [| prompt [| stem more]]]];
    simpl in Hlen; try lia.
  reflexivity.
Qed.

Lemma extra_arguments_ignored_witness :
  run no_directories
      (["generate_music.py"; "key"; "calm piano"; "out"] ++
       ["--loud"; "again"]) (Ok audio) ∅ =
  run no_directories
      ["generate_music.py"; "key"; "calm piano"; "out"] (Ok audio) ∅.
Proof.
  apply (extra_arguments_ignored no_directories
           ["generate_music.py"; "key"; "calm piano"; "out"]
           ["--loud"; "again"] (Ok audio) ∅).
  simpl. lia.
Defined.

(** *** Beyond the two answers *)

(** X13.  A request that is made and raises ([requests] does so when the
    connection fails) is not handled: the run ends in a traceback after
    the progress line and the request, prints no diagnostic of its own
    and leaves the files as they were. *)
Theorem request_failure_not_handled os prog api_key prompt stem extra e fs :
  is_Exception e = true ->
  In (request api_key prompt)
     (run os (prog :: api_key :: prompt :: stem :: extra) (Err e) fs).1.1 ->
  run os (prog :: api_key :: prompt :: stem :: extra) (Err e) fs =
    ([generating prompt; request api_key prompt], fs, Traceback e).
Proof.
  intros He Hsent%request_made. rewrite run_request_raises by done.
  by destruct e.
Qed.

Lemma request_failure_not_handled_witness :
  run no_directories ["generate_music.py"; "key"; "calm piano"; "out"]
      (Err (LibraryError "ConnectionError" "Max retries exceeded")) ∅ =
    ([generating "calm piano"; request "key" "calm piano"], ∅,
     Traceback (LibraryError "ConnectionError" "Max retries exceeded")).
Proof.
  apply (request_failure_not_handled no_directories "generate_music.py" "key"
           "calm piano" "out" []
           (LibraryError "ConnectionError" "Max retries exceeded") ∅).
  - reflexivity.
  - simpl. right. by left.
Defined.

(** X14.  Whatever the command line and whatever the request gives: the
    files of the working directory after a run are the files before it,
    unless the answer had status 200 and [open] opened a file of the
    working directory for [<stem>.mp3], [stem] being the third argument;
    then the one difference is that this file holds the response body.
    No run removes a file. *)
Theorem files_change_only_on_200 os argv post_reply fs :
  let fs' := (run os argv post_reply fs).1.2 in
  (fs' = fs \/
   exists resp stem f,
     post_reply = Ok resp /\ status_code resp = 200%Z /\
     argv !! 3 = Some stem /\ target os (mp3 stem) = Ok (Some f) /\
     fs' = <[f := content resp]> fs) /\
  (forall path, is_Some (fs !! path) -> is_Some (fs' !! path)).
Proof.
  intros fs'.
  assert (fs' = fs \/
          exists resp stem f,
            post_reply = Ok resp /\ status_code resp = 200%Z /\
            argv !! 3 = Some stem /\ target os (mp3 stem) = Ok (Some f) /\
            fs' = <[f := content resp]> fs)
    as Hfs.
  { subst fs'.
    destruct argv as [| prog [| api_key [| prompt [| stem extra]]]];
      try (by left).
    destruct (printable (VStr prompt)) eqn:Hp.
    2: { left. by rewrite run_prompt_unprintable. }
    destruct post_reply as [resp | e].
    2: { left. by rewrite run_request_raises. }
    destruct (Z.eq_dec (status_code resp) 200%Z) as [H200 | Hother].
    - rewrite run_success by done.
      destruct (target os (mp3 stem)) as [[f |] | e] eqn:Htarget.
      + right. exists resp, stem, f.
        repeat (split; [done |]). by destruct (printable (VStr stem)).
      + left. by destruct (printable (VStr stem)).
      + by left.
    - left. rewrite run_failure by done.
      destruct (text resp) as [body | e];
        [by destruct (printable (VStr body)) | done]. }
  split; [done |].
  intros path Hpath.
  destruct Hfs as [-> | (resp & stem & f & _ & _ & _ & _ & ->)]; [done |].
  apply lookup_insert_is_Some.
  destruct (decide (f = path)); [by left | by right].
Qed.



(** A prompt that standard output cannot encode: the progress line
    raises and no request is sent. *)
Example surrogate_prompt_sends_nothing :
  run no_directories ["generate_music.py"; "key"; surrogate_prompt; "out"]
      (Ok audio) ∅ = ([], ∅, Traceback UnicodeEncodeError).
Proof. by vm_compute. Qed.

End GenerateMusicFacts.
